(** * MonthDay: a month-day of the ISO-8601 calendar, such as [--12-03]

    A shallow embedding of [src/MonthDay.js] (js-joda) and the proofs of its
    specification.  JavaScript values that the class inspects at run time
    ([instanceof], [arguments.length], [== null], [===]) are a small sum type;
    [MonthDay] instances live in a heap, a reference is an index into it;
    methods are computations in a state-and-exception monad.  The classes the
    file imports ([Month], [ChronoField], [LocalDate], [Clock],
    [DateTimeFormatter], ...) are the collaborators of the specification; what
    the specification fixes of them is modelled here, what it leaves open
    (the text of their diagnostics, what [month.name()] answers, how a [Month]
    answers as a [TemporalAccessor]) is a member of the class [Collaborators].
    The system clocks that two of the three forms of [now] build are members
    of the class [SystemClocks]. *)

From Stdlib Require Import ZArith String Ascii List Bool Lia DecimalString.
From stdpp Require Import base list.

Open Scope string_scope.
Open Scope Z_scope.

(* ===================================================================== *)
(** * Collaborators: the month catalog, fields, dates and clocks          *)
(* ===================================================================== *)

Module Month.

(** Modelled from the spec: the Month Catalog ([./Month], not part of this
    file's source), "an enumeration of the twelve months, each exposing its
    1-based ordinal and its maximum valid day count assuming a leap year". *)
Inductive t :=
| JANUARY | FEBRUARY | MARCH | APRIL | MAY | JUNE
| JULY | AUGUST | SEPTEMBER | OCTOBER | NOVEMBER | DECEMBER.

(** [month.value()]: the 1-based ordinal. *)
Definition value (m : t) : Z :=
  match m with
  | JANUARY => 1 | FEBRUARY => 2 | MARCH => 3 | APRIL => 4
  | MAY => 5 | JUNE => 6 | JULY => 7 | AUGUST => 8
  | SEPTEMBER => 9 | OCTOBER => 10 | NOVEMBER => 11 | DECEMBER => 12
  end.

(** [month.maxLength()]: the length of the month in a leap year of the ISO
    calendar (February has 29 days; April, June, September and November 30). *)
Definition maxLength (m : t) : Z :=
  match m with
  | FEBRUARY => 29
  | APRIL | JUNE | SEPTEMBER | NOVEMBER => 30
  | _ => 31
  end.

(** The catalog entry of an ordinal, when it is one of 1..12. *)
Definition of_ordinal (n : Z) : option t :=
  match n with
  | 1 => Some JANUARY | 2 => Some FEBRUARY | 3 => Some MARCH
  | 4 => Some APRIL | 5 => Some MAY | 6 => Some JUNE
  | 7 => Some JULY | 8 => Some AUGUST | 9 => Some SEPTEMBER
  | 10 => Some OCTOBER | 11 => Some NOVEMBER | 12 => Some DECEMBER
  | _ => None
  end.

End Month.

(** Modelled from the spec: the two fields of [./temporal/ChronoField] that
    [MonthDay.js] names, with their legal numeric ranges ("day 1-31, or month
    1-12"). *)
Inductive ChronoField := MONTH_OF_YEAR | DAY_OF_MONTH.

Definition minimum (field : ChronoField) : Z := 1.

Definition maximum (field : ChronoField) : Z :=
  match field with MONTH_OF_YEAR => 12 | DAY_OF_MONTH => 31 end.

Definition isValidValue (field : ChronoField) (n : Z) : bool :=
  (minimum field <=? n) && (n <=? maximum field).

Module LocalDate.

(** Modelled from the spec: the date a Clock Source supplies ([./LocalDate]);
    [month()] is the catalog entry and [dayOfMonth()] the day number.  The
    record does not bound the day: what is proved of a date that a clock
    supplies states the bound that the day of every date of the calendar
    meets, 1..the month's length in a leap year. *)
Record t := make { year : Z; month : Month.t; dayOfMonth : Z }.

End LocalDate.

(** Modelled from the spec: a Clock Source "supplies now as a date"; a clock is
    what [LocalDate.now(clock)] reads from it.  A fixed clock reports the date
    it was fixed at. *)
Record Clock := { today : LocalDate.t }.

Definition fixedClockAt (date : LocalDate.t) : Clock := {| today := date |}.

(* ===================================================================== *)
(** * Exceptions and values                                               *)
(* ===================================================================== *)

(** A thrown error object: the name of its class and its message. *)
Record Exception := { exception_name : string; exception_message : string }.

(** [new DateTimeException(message)], the one error class [MonthDay.js]
    constructs itself. *)
Definition DateTimeException (message : string) : Exception :=
  {| exception_name := "DateTimeException"; exception_message := message |}.

(** The outcome of a call: a returned value or a thrown exception. *)
Inductive Result (A : Type) :=
| Return (a : A)
| Throw (e : Exception).

Arguments Return {A} a.
Arguments Throw {A} e.

(** A [TemporalAccessor] other than a [MonthDay]: what string concatenation
    makes of it ([toString()]), the [name] of its [constructor] ([None] when
    [constructor] is null) and what [get(field)] answers or throws. *)
Record TemporalAccessor := {
  toString : string;
  constructor_name : option string;
  get : ChronoField -> Result Z
}.

(** Modelled from the spec: the Text Formatter/Parser ([./format]) "converts
    between a literal textual pattern and field values": a formatter is the
    list of the pattern's elements, a literal or a field printed and parsed as
    exactly [width] decimal digits. *)
Inductive PatternElement :=
| Literal (literal : string)
| FieldValue (field : ChronoField) (width : nat).

Definition DateTimeFormatter := list PatternElement.

(** A reference to a [MonthDay] instance: its index in the heap. *)
Definition loc := nat.

(** The JavaScript values the class tells apart at run time. *)
Inductive Value :=
| undefined
| null
| boolean (b : bool)
| number (n : Z)
| str (s : string)
| MonthRef (m : Month.t)
| MonthDayRef (l : loc)
| AccessorRef (t : TemporalAccessor)
| FormatterRef (f : DateTimeFormatter).

(** [value == null]: true of [null] and [undefined] only; a parameter typed by
    its class is an [option], [None] when the caller passed null. *)
Class Nullable (A : Type) := is_null : A -> bool.

#[global]
Instance Value_Nullable : Nullable Value :=
  fun v => match v with undefined | null => true | _ => false end.

#[global]
Instance option_Nullable {A : Type} : Nullable (option A) :=
  fun o => match o with None => true | Some _ => false end.

Definition as_Month (v : Value) : option Month.t :=
  match v with MonthRef m => Some m | _ => None end.

Definition instanceof_Month (v : Value) : bool :=
  match v with MonthRef _ => true | _ => false end.

Definition instanceof_MonthDay (v : Value) : bool :=
  match v with MonthDayRef _ => true | _ => false end.

Definition instanceof_DateTimeFormatter (v : Value) : bool :=
  match v with FormatterRef _ => true | _ => false end.

(** [MonthDay extends Temporal], and the specification has a [MonthDay]
    satisfy the extraction protocol, so a [MonthDay] is a [TemporalAccessor];
    so is a [Month] of the catalog; every other [TemporalAccessor] is an
    [AccessorRef]. *)
Definition instanceof_TemporalAccessor (v : Value) : bool :=
  match v with MonthRef _ | MonthDayRef _ | AccessorRef _ => true | _ => false end.

(** [this === obj] for a [MonthDay] receiver: the same reference. *)
Definition same_object (this : loc) (obj : Value) : bool :=
  match obj with MonthDayRef l => Nat.eqb this l | _ => false end.

(** The i-th actual argument, [undefined] when the call passed fewer. *)
Definition argument (i : nat) (arguments : list Value) : Value :=
  nth i arguments undefined.

(* ===================================================================== *)
(** * Text                                                                *)
(* ===================================================================== *)

(** [String(n)] for an integer [n] (as [MonthDay.js] concatenates it only
    after the day-of-month range check, one or two decimal digits). *)
Definition Z_to_string (n : Z) : string := NilZero.string_of_int (Z.to_int n).

Definition is_digit (c : ascii) : bool :=
  (48 <=? nat_of_ascii c)%nat && (nat_of_ascii c <=? 57)%nat.

Definition digit_value (c : ascii) : Z := Z.of_nat (nat_of_ascii c) - 48.

Definition digit_char (n : Z) : ascii := ascii_of_nat (Z.to_nat (48 + n)).

(** The ASCII characters JavaScript's [StringToNumber] strips as white space:
    TAB, LF, VT, FF, CR and SP. *)
Definition is_white_space (c : ascii) : bool :=
  let n := nat_of_ascii c in
  ((9 <=? n)%nat && (n <=? 13)%nat) || (n =? 32)%nat.

Fixpoint skip_white_space (s : string) : string :=
  match s with
  | String c s' => if is_white_space c then skip_white_space s' else s
  | EmptyString => s
  end.

(** Whether a string, its ASCII white space stripped, can be a
    [StringNumericLiteral]: it starts with a digit, a sign or a dot, or with
    [Infinity], or with a byte of a longer code point, which may be Unicode
    white space. *)
Definition may_be_numeric_literal (s : string) : bool :=
  match s with
  | String c _ =>
      let n := nat_of_ascii c in
      is_digit c || (n =? 43)%nat || (n =? 45)%nat || (n =? 46)%nat
      || (128 <=? n)%nat || String.prefix "Infinity" s
  | EmptyString => false
  end.

(* ===================================================================== *)
(** * What the specification leaves open of the collaborators             *)
(* ===================================================================== *)

(** The specification names the collaborators' failures and says nothing of
    the text of their diagnostics; of the Month Catalog it fixes the ordinal
    and the maximum length only.  A development over [MonthDay.js] holds for
    every choice of the rest. *)
Class Collaborators := {
  (** [./assert]: what [requireNonNull(value, parameterName)] throws for a
      null value, *)
  null_failure : string -> Exception;
  (** and what [requireInstance(value, class, parameterName)] throws for a
      value of another class. *)
  instance_failure : string -> Exception;
  (** The message of the [DateTimeException] that the Field Validator and the
      Month Catalog raise for a value outside the field's range. *)
  range_message : ChronoField -> Value -> string;
  (** The formatter's own error for a text it cannot parse. *)
  parse_failure : DateTimeFormatter -> Value -> Exception;
  (** The parser's field accumulator: its [toString()], the name of its
      constructor, and what its [get(field)] throws for a field the text did
      not supply. *)
  accumulator_toString : list (ChronoField * Z) -> string;
  accumulator_constructor_name : option string;
  unsupported_field : ChronoField -> Exception;
  (** [String(+s)] for a string [s] that may be a numeric literal of
      JavaScript (a floating-point conversion, not modelled). *)
  numeric_literal_text : string -> string;
  (** What the call [month.name()] of line 141 answers or throws: the catalog
      of the specification exposes no display name, and a call of a method
      that an object does not have throws a [TypeError]. *)
  name_of_Month : Month.t -> Result string;
  (** A [Month] as the [TemporalAccessor] it is: its [toString()], the name
      of its constructor and what its [get(field)] answers or throws. *)
  Month_accessor : Month.t -> TemporalAccessor
}.

(* ===================================================================== *)
(** * State and the monad of method calls                                 *)
(* ===================================================================== *)

(** An instance of [MonthDay]: the two fields its constructor assigns. *)
Record MonthDay := { _month : Z; _day : Z }.

(** [createTemporalQuery(name, queryFromFunction)]: the query's name and its
    function; the one function [MonthDay.js] registers is
    [(temporal) => MonthDay.from(temporal)]. *)
Inductive QueryFunction := call_MonthDay_from.

Record TemporalQuery := { query_name : string; queryFrom : QueryFunction }.

(** The calls to collaborators whose order or number the specification
    speaks of. *)
Inductive Call :=
| call_checkValidValue (field : ChronoField) (value : Value)
| call_Month_of (value : Value)
| call_maxLength (month : Month.t)
| call_LocalDate_now (clock : Clock)
| call_get (temporal : TemporalAccessor) (field : ChronoField)
| call_parse (formatter : DateTimeFormatter) (input : Value).

(** The state a call runs in: the [MonthDay] instances allocated so far, the
    module variable [PARSER], the static property [MonthDay.FROM] (both
    undefined until [_init()] runs), and the collaborator calls made. *)
Record State := {
  heap : list MonthDay;
  PARSER : Value;
  MonthDay_FROM : option TemporalQuery;
  calls : list Call
}.

Definition initial : State :=
  {| heap := []; PARSER := undefined; MonthDay_FROM := None; calls := [] |}.

Definition M (A : Type) : Type := State -> Result A * State.

Definition ret {A} (a : A) : M A := fun st => (Return a, st).

Definition throw {A} (e : Exception) : M A := fun st => (Throw e, st).

Definition bind {A B} (m : M A) (k : A -> M B) : M B :=
  fun st =>
    match m st with
    | (Return a, st') => k a st'
    | (Throw e, st') => (Throw e, st')
    end.

(** [try { body } catch (ex) { handler }]. *)
Definition try_catch {A} (body : M A) (handler : Exception -> M A) : M A :=
  fun st =>
    match body st with
    | (Return a, st') => (Return a, st')
    | (Throw ex, st') => handler ex st'
    end.

Notation "'let!' x ':=' m 'in' k" := (bind m (fun x => k))
  (at level 10, x name, m at level 100, k at level 200).

(** The state after one more collaborator call, and after one more
    allocation. *)
Definition log (c : Call) (st : State) : State :=
  {| heap := heap st; PARSER := PARSER st; MonthDay_FROM := MonthDay_FROM st;
     calls := (calls st ++ [c])%list |}.

Definition alloc (obj : MonthDay) (st : State) : State :=
  {| heap := (heap st ++ [obj])%list; PARSER := PARSER st;
     MonthDay_FROM := MonthDay_FROM st; calls := calls st |}.

Definition record (c : Call) : M unit := fun st => (Return tt, log c st).

(** [new MonthDay(month, dayOfMonth)], lines 252-256: a fresh instance with
    the two fields assigned; the reference to it is returned. *)
Definition new_MonthDay (month dayOfMonth : Z) : M loc :=
  fun st =>
    (Return (length (heap st)),
     alloc {| _month := month; _day := dayOfMonth |} st).

(** Reading the instance behind [this].  A reference that was never allocated
    has no counterpart in JavaScript; reading through it throws here. *)
Definition dangling : Exception :=
  {| exception_name := "TypeError"; exception_message := "not a MonthDay" |}.

Definition this_object (this : loc) : M MonthDay :=
  fun st =>
    match heap st !! this with
    | Some obj => (Return obj, st)
    | None => (Throw dangling, st)
    end.

(* ===================================================================== *)
(** * The formatter: parsing and printing a pattern                       *)
(* ===================================================================== *)

(** [new DateTimeFormatterBuilder()] and the three builder methods that
    [_init()] chains. *)
Definition DateTimeFormatterBuilder : Type := list PatternElement.

Definition new_DateTimeFormatterBuilder : DateTimeFormatterBuilder := [].

Definition appendLiteral (literal : string) (b : DateTimeFormatterBuilder)
  : DateTimeFormatterBuilder := (b ++ [Literal literal])%list.

Definition appendValue (field : ChronoField) (width : nat)
  (b : DateTimeFormatterBuilder) : DateTimeFormatterBuilder :=
  (b ++ [FieldValue field width])%list.

Definition toFormatter (b : DateTimeFormatterBuilder) : DateTimeFormatter := b.

(** The rest of [s] after the literal [p], when [s] starts with it. *)
Fixpoint strip_literal (p s : string) : option string :=
  match p, s with
  | EmptyString, _ => Some s
  | String a p', String b s' =>
      if Ascii.eqb a b then strip_literal p' s' else None
  | String _ _, EmptyString => None
  end.

(** Exactly [width] decimal digits read as a number, and the rest. *)
Fixpoint parse_digits (width : nat) (s : string) (acc : Z) : option (Z * string) :=
  match width with
  | O => Some (acc, s)
  | S width' =>
      match s with
      | String c s' =>
          if is_digit c then parse_digits width' s' (10 * acc + digit_value c)
          else None
      | EmptyString => None
      end
  end.

(** Modelled from the spec: parsing a text against the pattern, element by
    element and to the end of the text; the result is the field values read. *)
Fixpoint parse_pattern (f : DateTimeFormatter) (s : string)
  : option (list (ChronoField * Z)) :=
  match f with
  | [] => match s with EmptyString => Some [] | _ => None end
  | Literal p :: f' =>
      match strip_literal p s with
      | Some rest => parse_pattern f' rest
      | None => None
      end
  | FieldValue field width :: f' =>
      match parse_digits width s 0 with
      | Some (n, rest) =>
          match parse_pattern f' rest with
          | Some fields => Some ((field, n) :: fields)
          | None => None
          end
      | None => None
      end
  end.

(** [n] printed as exactly [width] decimal digits, zero-padded. *)
Fixpoint print_digits (width : nat) (n : Z) : string :=
  match width with
  | O => ""
  | S width' => print_digits width' (n / 10) ++ String (digit_char (n mod 10)) ""
  end.

(** Modelled from the spec: printing field values through the pattern; a
    missing field, or a value that does not fit the field's width, fails. *)
Fixpoint format_pattern (f : DateTimeFormatter) (fields : ChronoField -> option Z)
  : option string :=
  match f with
  | [] => Some ""
  | Literal p :: f' =>
      match format_pattern f' fields with
      | Some rest => Some (p ++ rest)
      | None => None
      end
  | FieldValue field width :: f' =>
      match fields field, format_pattern f' fields with
      | Some n, Some rest =>
          if (0 <=? n) && (n <? 10 ^ Z.of_nat width)
          then Some (print_digits width n ++ rest) else None
      | _, _ => None
      end
  end.

Definition ChronoField_eqb (a b : ChronoField) : bool :=
  match a, b with
  | MONTH_OF_YEAR, MONTH_OF_YEAR | DAY_OF_MONTH, DAY_OF_MONTH => true
  | _, _ => false
  end.

Fixpoint field_value (field : ChronoField) (fields : list (ChronoField * Z))
  : option Z :=
  match fields with
  | [] => None
  | (f, n) :: fields' =>
      if ChronoField_eqb field f then Some n else field_value field fields'
  end.

(** What a call on an undefined query throws. *)
Definition undefined_query : Exception :=
  {| exception_name := "TypeError"; exception_message := "query is undefined" |}.

(* ===================================================================== *)
(** * MonthDay.js                                                         *)
(* ===================================================================== *)

Section MonthDay_js.

Context `{Collaborators}.

(** ** Calls into the collaborators *)

(** [requireNonNull(value, parameterName)] of [./assert]. *)
Definition requireNonNull {A : Type} `{Nullable A} (value : A)
  (parameterName : string) : M unit :=
  if is_null value then throw (null_failure parameterName) else ret tt.

(** [requireInstance(value, _class, parameterName)] of [./assert]. *)
Definition requireInstance (value : Value) (_class : Value -> bool)
  (parameterName : string) : M unit :=
  if _class value then ret tt else throw (instance_failure parameterName).

(** Modelled from the spec: the Field Validator, "given a semantic field
    identifier and a candidate integer, confirms the integer lies within that
    field's legal numeric range; fails otherwise", with a
    [DateTimeException].  The integer it confirmed is handed on. *)
Definition checkValidValue (field : ChronoField) (value : Value) : M Z :=
  let! _ := record (call_checkValidValue field value) in
  match value with
  | number n =>
      if isValidValue field n then ret n
      else throw (DateTimeException (range_message field value))
  | _ => throw (DateTimeException (range_message field value))
  end.

(** Modelled from the spec: [Month.of(month)] "resolves monthNumber to a Month
    Catalog entry (fails with a RangeError if outside 1-12)". *)
Definition Month_of (month : Value) : M Month.t :=
  let! _ := record (call_Month_of month) in
  match month with
  | number n =>
      match Month.of_ordinal n with
      | Some m => ret m
      | None => throw (DateTimeException (range_message MONTH_OF_YEAR month))
      end
  | _ => throw (DateTimeException (range_message MONTH_OF_YEAR month))
  end.

(** [month.maxLength()]. *)
Definition Month_maxLength (month : Month.t) : M Z :=
  let! _ := record (call_maxLength month) in
  ret (Month.maxLength month).

(** [month.name()]. *)
Definition Month_name (month : Month.t) : M string :=
  match name_of_Month month with
  | Return name => ret name
  | Throw ex => throw ex
  end.

(** [LocalDate.now(clock)]. *)
Definition LocalDate_now (clock : Clock) : M LocalDate.t :=
  let! _ := record (call_LocalDate_now clock) in
  ret (today clock).

(** [temporal.get(field)]. *)
Definition TemporalAccessor_get (temporal : TemporalAccessor)
  (field : ChronoField) : M Z :=
  let! _ := record (call_get temporal field) in
  match get temporal field with
  | Return n => ret n
  | Throw ex => throw ex
  end.

(** [String(+s)]: the empty string and white space are [0]; a string that
    cannot be a numeric literal is [NaN]. *)
Definition unary_plus_text (s : string) : string :=
  match skip_white_space s with
  | EmptyString => "0"
  | String _ _ as stripped =>
      if may_be_numeric_literal stripped then numeric_literal_text s else "NaN"
  end.

(** ** The factories [of] *)

(** [MonthDay._ofMonthNumber(month, dayOfMonth)], lines 136-144.  The
    argument of [new DateTimeException] is evaluated before the exception is
    built: when [month.name()] throws, that is what leaves the method. *)
Definition _ofMonthNumber (month : option Month.t) (dayOfMonth : Value) : M loc :=
  let! _ := requireNonNull month "month" in
  let! day := checkValidValue DAY_OF_MONTH dayOfMonth in
  match month with
  | Some m =>
      let! maxLength := Month_maxLength m in
      if day >? maxLength then
        let! name := Month_name m in
        throw (DateTimeException
                 ("Illegal value for DayOfMonth field, value " ++ Z_to_string day ++
                  " is not valid for month " ++ name))
      else new_MonthDay (Month.value m) day
  | None => throw (null_failure "month") (* [requireNonNull] has thrown it *)
  end.

(** [MonthDay._ofNumberNumber(month, dayOfMonth)], lines 162-166.  Its last
    line calls [MonthDay.of] with the result of [Month.of] first, which [of]
    hands to [_ofMonthNumber] ([_ofNumberNumber_calls_of] below). *)
Definition _ofNumberNumber (month dayOfMonth : Value) : M loc :=
  let! _ := requireNonNull month "month" in
  let! _ := requireNonNull dayOfMonth "dayOfMonth" in
  let! m := Month_of month in
  _ofMonthNumber (Some m) dayOfMonth.

(** [MonthDay.of()], lines 113-119: the overload is chosen by the number of
    arguments and the class of the first. *)
Definition of_ (arguments : list Value) : M loc :=
  if (length arguments =? 2)%nat && instanceof_Month (argument 0 arguments)
  then _ofMonthNumber (as_Month (argument 0 arguments)) (argument 1 arguments)
  else _ofNumberNumber (argument 0 arguments) (argument 1 arguments).

(** ** [now] *)

(** [MonthDay._nowClock(clock)], lines 104-108. *)
Definition _nowClock (clock : option Clock) : M loc :=
  let! _ := requireNonNull clock "clock" in
  match clock with
  | Some c =>
      let! now := LocalDate_now c in
      of_ [MonthRef (LocalDate.month now); number (LocalDate.dayOfMonth now)]
  | None => throw (null_failure "clock") (* [requireNonNull] has thrown it *)
  end.

(** ** [from] *)

(** The message of the [DateTimeException] of [from], lines 198-199:
    ['Unable to obtain MonthDay from TemporalAccessor: ' + temporal +
     ', type ' + +(temporal && temporal.constructor != null ?
                   temporal.constructor.name : '')].
    The second [+] before the parenthesis is a unary plus: the name is
    converted to a number before it is concatenated. *)
Definition from_message (temporal : TemporalAccessor) : string :=
  "Unable to obtain MonthDay from TemporalAccessor: " ++ toString temporal ++
  ", type " ++
  unary_plus_text
    (match constructor_name temporal with Some name => name | None => "" end).

(** The [try] and [catch] of [MonthDay.from], lines 191-200, on a temporal
    that is not a [MonthDay]. *)
Definition from_fields (temporal : TemporalAccessor) : M loc :=
  try_catch
    (let! month := TemporalAccessor_get temporal MONTH_OF_YEAR in
     let! day := TemporalAccessor_get temporal DAY_OF_MONTH in
     of_ [number month; number day])
    (fun ex => throw (DateTimeException (from_message temporal))).

(** [MonthDay.from(temporal)], lines 185-201. *)
Definition from (temporal : Value) : M loc :=
  let! _ := requireNonNull temporal "temporal" in
  let! _ := requireInstance temporal instanceof_TemporalAccessor "temporal" in
  match temporal with
  | MonthDayRef l => ret l
  | AccessorRef t => from_fields t
  | MonthRef m => from_fields (Month_accessor m)
  | _ => throw (instance_failure "temporal") (* [requireInstance] has thrown it *)
  end.

(** ** [parse] *)

(** Modelled from the spec: the parser's "intermediate field-accumulator
    result", a [TemporalAccessor] that answers the fields the text supplied. *)
Definition accumulator (fields : list (ChronoField * Z)) : TemporalAccessor :=
  {| toString := accumulator_toString fields;
     constructor_name := accumulator_constructor_name;
     get := fun field =>
              match field_value field fields with
              | Some n => Return n
              | None => Throw (unsupported_field field)
              end |}.

(** [query.queryFrom(temporal)]. *)
Definition TemporalQuery_queryFrom (query : TemporalQuery) (temporal : Value)
  : M loc :=
  match queryFrom query with
  | call_MonthDay_from => from temporal
  end.

(** Modelled from the spec: [formatter.parse(text, query)], "configured with a
    callback that reconstructs a MonthDayValue by calling fromTemporalLike on
    the parser's intermediate field-accumulator result"; a text that does not
    match the pattern is the formatter's own error. *)
Definition DateTimeFormatter_parse (formatter : DateTimeFormatter)
  (input : Value) (query : option TemporalQuery) : M loc :=
  let! _ := record (call_parse formatter input) in
  match input with
  | str s =>
      match parse_pattern formatter s with
      | Some fields =>
          match query with
          | Some q => TemporalQuery_queryFrom q (AccessorRef (accumulator fields))
          | None => throw undefined_query
          end
      | None => throw (parse_failure formatter input)
      end
  | _ => throw (parse_failure formatter input)
  end.

Definition read_PARSER : M Value := fun st => (Return (PARSER st), st).

Definition read_MonthDay_FROM : M (option TemporalQuery) :=
  fun st => (Return (MonthDay_FROM st), st).

(** [MonthDay._parseStringFormatter(text, formatter)], lines 238-243. *)
Definition _parseStringFormatter (text formatter : Value) : M loc :=
  let! _ := requireNonNull text "text" in
  let! _ := requireNonNull formatter "formatter" in
  let! _ := requireInstance formatter instanceof_DateTimeFormatter "formatter" in
  let! query := read_MonthDay_FROM in
  match formatter with
  | FormatterRef f => DateTimeFormatter_parse f text query
  | _ => throw (instance_failure "formatter") (* [requireInstance] has thrown it *)
  end.

(** [MonthDay._parseString(text)], lines 224-226. *)
Definition _parseString (text : Value) : M loc :=
  let! parser := read_PARSER in
  _parseStringFormatter text parser.

(** [MonthDay.parse()], lines 206-212. *)
Definition parse (arguments : list Value) : M loc :=
  if (length arguments =? 1)%nat then _parseString (argument 0 arguments)
  else _parseStringFormatter (argument 0 arguments) (argument 1 arguments).

Definition createTemporalQuery (name : string) (queryFromFunction : QueryFunction)
  : TemporalQuery :=
  {| query_name := name; queryFrom := queryFromFunction |}.

(** [_init()], lines 324-335: assigns [PARSER] and [MonthDay.FROM]. *)
Definition _init : M unit :=
  fun st =>
    (Return tt,
     {| heap := heap st;
        PARSER :=
          FormatterRef
            (toFormatter
               (appendValue DAY_OF_MONTH 2
                  (appendLiteral "-"
                     (appendValue MONTH_OF_YEAR 2
                        (appendLiteral "--" new_DateTimeFormatterBuilder)))));
        MonthDay_FROM := Some (createTemporalQuery "MonthDay.FROM" call_MonthDay_from);
        calls := calls st |}).

(** ** Accessors and equality *)

(** [monthValue()], lines 269-271. *)
Definition monthValue (this : loc) : M Z :=
  let! obj := this_object this in
  ret (_month obj).

(** [month()], lines 284-286. *)
Definition month (this : loc) : M Month.t :=
  let! obj := this_object this in
  Month_of (number (_month obj)).

(** [dayOfMonth()], lines 295-297. *)
Definition dayOfMonth (this : loc) : M Z :=
  let! obj := this_object this in
  ret (_day obj).

(** [equals(obj)], lines 308-317; [&&] evaluates its right operand only when
    the left one is true. *)
Definition equals (this : loc) (obj : Value) : M bool :=
  if same_object this obj then ret true
  else
    match obj with
    | MonthDayRef other =>
        let! m1 := monthValue this in
        let! m2 := monthValue other in
        if m1 =? m2 then
          let! d1 := dayOfMonth this in
          let! d2 := dayOfMonth other in
          ret (d1 =? d2)
        else ret false
    | _ => ret false
    end.

(** ** The calls a client can make *)

(** The operations of the class, as one type: the factories, the accessors
    and [_init()].  The constructor is not one of them: instances are
    "created only through validated factory paths". *)
Inductive Operation :=
| op_of (arguments : list Value)
| op_ofMonthNumber (month : option Month.t) (dayOfMonth : Value)
| op_ofNumberNumber (month dayOfMonth : Value)
| op_nowClock (clock : option Clock)
| op_from (temporal : Value)
| op_parse (arguments : list Value)
| op_init
| op_monthValue (this : loc)
| op_month (this : loc)
| op_dayOfMonth (this : loc)
| op_equals (this : loc) (obj : Value).

Definition returning {A : Type} (wrap : A -> Value) (m : M A) : M Value :=
  let! a := m in ret (wrap a).

Definition perform (op : Operation) : M Value :=
  match op with
  | op_of arguments => returning MonthDayRef (of_ arguments)
  | op_ofMonthNumber month dayOfMonth =>
      returning MonthDayRef (_ofMonthNumber month dayOfMonth)
  | op_ofNumberNumber month dayOfMonth =>
      returning MonthDayRef (_ofNumberNumber month dayOfMonth)
  | op_nowClock clock => returning MonthDayRef (_nowClock clock)
  | op_from temporal => returning MonthDayRef (from temporal)
  | op_parse arguments => returning MonthDayRef (parse arguments)
  | op_init => returning (fun _ => undefined) _init
  | op_monthValue this => returning number (monthValue this)
  | op_month this => returning MonthRef (month this)
  | op_dayOfMonth this => returning number (dayOfMonth this)
  | op_equals this obj => returning boolean (equals this obj)
  end.

(** The states a program reaches from the initial one by calling them. *)
Inductive reachable : State -> Prop :=
| reachable_initial : reachable initial
| reachable_perform (op : Operation) (st : State) :
    reachable st -> reachable (snd (perform op st)).

(** The final state and the outcome of a sequence of calls. *)
Definition final {A : Type} (m : M A) (st : State) : State := snd (m st).

Definition outcome {A : Type} (m : M A) (st : State) : Result A := fst (m st).

End MonthDay_js.

(** The month length the specification speaks of, by month number. *)
Definition maxLengthInLeapYear (m : Z) : Z :=
  match Month.of_ordinal m with
  | Some mo => Month.maxLength mo
  | None => 0
  end.

(** The invariant of the data model: month 1-12, day 1-31, and the day within
    the month's length in a leap year. *)
Definition valid (obj : MonthDay) : Prop :=
  1 <= _month obj <= 12 /\ 1 <= _day obj <= 31 /\
  _day obj <= maxLengthInLeapYear (_month obj).

(** Three temporal objects to run [from] on: a date, 2021-02-17; a time of
    day, which has neither field; and an object that answers month 4 and
    day 31. *)
Definition a_date : TemporalAccessor :=
  {| toString := "2021-02-17";
     constructor_name := Some "LocalDate";
     get := fun field =>
              match field with
              | MONTH_OF_YEAR => Return 2
              | DAY_OF_MONTH => Return 17
              end |}.

Definition a_time : TemporalAccessor :=
  {| toString := "12:30";
     constructor_name := Some "LocalTime";
     get := fun field =>
              Throw {| exception_name := "UnsupportedTemporalTypeException";
                       exception_message := "Unsupported field" |} |}.

Definition april_31 : TemporalAccessor :=
  {| toString := "04-31";
     constructor_name := Some "Fields";
     get := fun field =>
              match field with
              | MONTH_OF_YEAR => Return 4
              | DAY_OF_MONTH => Return 31
              end |}.

(** Collaborators with plain diagnostics, to run the model on inputs; the
    numeric conversion is stood in for by the text itself.  The [Month] of
    the repository defines no method [name]: the call of line 141 is the
    [TypeError] of a call of what is not a function.  A [Month] answers its
    ordinal for the month field and has no day field. *)
Definition plain : Collaborators :=
  {| null_failure := fun p =>
       {| exception_name := "NullPointerException"; exception_message := p |};
     instance_failure := fun p =>
       {| exception_name := "IllegalArgumentException"; exception_message := p |};
     range_message := fun _ _ => "value out of range";
     parse_failure := fun _ _ =>
       {| exception_name := "DateTimeParseException";
          exception_message := "text could not be parsed" |};
     accumulator_toString := fun _ => "parsed fields";
     accumulator_constructor_name := Some "DateTimeBuilder";
     unsupported_field := fun _ =>
       {| exception_name := "UnsupportedTemporalTypeException";
          exception_message := "unsupported field" |};
     numeric_literal_text := fun s => s;
     name_of_Month := fun _ =>
       Throw {| exception_name := "TypeError";
                exception_message := "month.name is not a function" |};
     Month_accessor := fun m =>
       {| toString := "a month";
          constructor_name := Some "Month";
          get := fun field =>
                   match field with
                   | MONTH_OF_YEAR => Return (Month.value m)
                   | DAY_OF_MONTH =>
                       Throw {| exception_name := "UnsupportedTemporalTypeException";
                                exception_message := "unsupported field" |}
                   end |} |}.

(* ===================================================================== *)
(** * Observations of a run                                               *)
(* ===================================================================== *)

(** A computation preserves an observation [f] of the state when no run of
    it changes [f]. *)
Definition preserves {X A : Type} (f : State -> X) (m : M A) : Prop :=
  forall st : State, f (snd (m st)) = f st.

(** The number of times the clock was read. *)
Definition is_clock_reading (c : Call) : bool :=
  match c with call_LocalDate_now _ => true | _ => false end.

Definition clock_readings (st : State) : nat :=
  length (List.filter is_clock_reading (calls st)).

(** What a call may do to the heap: nothing, or, when it returns, add one
    valid instance at its end. *)
Definition creates_valid {A : Type} (m : M A) : Prop :=
  forall st : State,
    heap (snd (m st)) = heap st \/
    (exists (obj : MonthDay) (a : A),
        valid obj /\ fst (m st) = Return a /\
        heap (snd (m st)) = (heap st ++ [obj])%list).

(** What leaves [_ofMonthNumber] on a day beyond the month's length: the
    [DateTimeException] of lines 140-141 with the day and the answer of
    [month.name()], or what [month.name()] throws. *)
Definition combination_failure `{Collaborators} (month : Month.t) (day : Z)
  : Exception :=
  match name_of_Month month with
  | Return name =>
      DateTimeException
        ("Illegal value for DayOfMonth field, value " ++ Z_to_string day ++
         " is not valid for month " ++ name)
  | Throw ex => ex
  end.

(** The pattern [--MM-dd]. *)
Definition default_pattern : DateTimeFormatter :=
  [Literal "--"; FieldValue MONTH_OF_YEAR 2; Literal "-"; FieldValue DAY_OF_MONTH 2].

(** Modelled from the spec: the Text Formatter/Parser prints "field values";
    the fields it can read of a value are those the value answers to
    [get(field)], the call of the Date Extraction Protocol that
    [MonthDay.from] makes at lines 193-194.  [MonthDay.js] defines no [get],
    no [getLong] and no [isSupported]: a formatter reads no field of a
    [MonthDay]. *)
Definition readable_fields `{Collaborators} (temporal : Value)
  (field : ChronoField) : option Z :=
  match temporal with
  | AccessorRef t =>
      match get t field with Return n => Some n | Throw _ => None end
  | MonthRef m =>
      match get (Month_accessor m) field with Return n => Some n | Throw _ => None end
  | _ => None
  end.

(** A month number and a day number as the two fields to print. *)
Definition MonthDay_fields (monthValue dayOfMonth : Z) (field : ChronoField)
  : option Z :=
  match field with
  | MONTH_OF_YEAR => Some monthValue
  | DAY_OF_MONTH => Some dayOfMonth
  end.

(* ===================================================================== *)
(** * The forms of [now]                                                  *)
(* ===================================================================== *)

(** [./ZoneId]: a time-zone identifier. *)
Record ZoneId := { zone_id : string }.

(** What a call of [MonthDay.now] can pass: nothing of use, a zone, or a
    clock. *)
Inductive NowArgument :=
| now_undefined
| now_null
| now_ZoneId (zone : ZoneId)
| now_Clock (clock : Clock).

#[global]
Instance NowArgument_Nullable : Nullable NowArgument :=
  fun a => match a with now_undefined | now_null => true | _ => false end.

Definition instanceof_ZoneId (a : NowArgument) : bool :=
  match a with now_ZoneId _ => true | _ => false end.

Definition as_ZoneId (a : NowArgument) : option ZoneId :=
  match a with now_ZoneId z => Some z | _ => None end.

Definition now_argument (i : nat) (arguments : list NowArgument) : NowArgument :=
  nth i arguments now_undefined.

(** Modelled from the spec: the Clock Source "supplies now as a date,
    optionally parameterized by a time-zone identifier"; the thin callers
    "build the appropriate clock".  For one call, [Clock.systemDefaultZone()]
    and [Clock.system(zone)] are the clocks they build, and
    [LocalDate.now(zone)] is what [LocalDate.now] answers or throws when a
    zone stands where [_nowClock] expects a clock. *)
Class SystemClocks := {
  Clock_systemDefaultZone : Clock;
  Clock_system : ZoneId -> Clock;
  LocalDate_now_ZoneId : ZoneId -> Result LocalDate.t
}.

Section Now.

Context `{Collaborators} `{SystemClocks}.

(** [MonthDay._now0()], lines 73-75. *)
Definition _now0 : M loc := _nowClock (Some Clock_systemDefaultZone).

(** [MonthDay._nowZoneId(zone)], lines 89-92. *)
Definition _nowZoneId (zone : option ZoneId) : M loc :=
  let! _ := requireNonNull zone "zone" in
  match zone with
  | Some z => _nowClock (Some (Clock_system z))
  | None => throw (null_failure "zone") (* [requireNonNull] has thrown it *)
  end.

(** [MonthDay._nowClock.apply(this, arguments)]: [_nowClock] on whatever the
    first argument is.  On a zone its null check passes and [LocalDate.now]
    is handed the zone (a call that the log of clock readings, which is of
    clocks, does not hold). *)
Definition _nowClock_apply (clock : NowArgument) : M loc :=
  match clock with
  | now_Clock c => _nowClock (Some c)
  | now_undefined | now_null => _nowClock None
  | now_ZoneId z =>
      match LocalDate_now_ZoneId z with
      | Return now =>
          of_ [MonthRef (LocalDate.month now); number (LocalDate.dayOfMonth now)]
      | Throw ex => throw ex
      end
  end.

(** [MonthDay.now()], lines 53-61. *)
Definition now (arguments : list NowArgument) : M loc :=
  if (length arguments =? 0)%nat then _now0
  else if (length arguments =? 1)%nat && instanceof_ZoneId (now_argument 0 arguments)
  then _nowZoneId (as_ZoneId (now_argument 0 arguments))
  else _nowClock_apply (now_argument 0 arguments).

End Now.

(** System clocks to run [now] on: both read 2024-02-29. *)
Definition leap_day_clocks : SystemClocks :=
  {| Clock_systemDefaultZone := fixedClockAt (LocalDate.make 2024 Month.FEBRUARY 29);
     Clock_system := fun _ => fixedClockAt (LocalDate.make 2024 Month.FEBRUARY 29);
     LocalDate_now_ZoneId := fun _ => Return (LocalDate.make 2024 Month.FEBRUARY 29) |}.

(** A computation that, whenever it returns, returns the reference of an
    instance that did not exist before, and has added that one valid instance
    to the heap and nothing else. *)
Definition returns_fresh (m : M loc) : Prop :=
  forall (st st' : State) (this : loc),
    m st = (Return this, st') ->
    heap st !! this = None /\
    exists obj : MonthDay,
      valid obj /\ heap st' = (heap st ++ [obj])%list /\ heap st' !! this = Some obj.

(** Whether a month number and a day number go together. *)
Definition is_month_day (m d : Z) : Prop :=
  1 <= m <= 12 /\ 1 <= d <= maxLengthInLeapYear m.

(* ===================================================================== *)
(** * Facts about the collaborators                                       *)
(* ===================================================================== *)

Lemma maxLength_bounds (mo : Month.t) : 29 <= Month.maxLength mo <= 31.
Proof. destruct mo; simpl; lia. Qed.

Lemma value_bounds (mo : Month.t) : 1 <= Month.value mo <= 12.
Proof. destruct mo; simpl; lia. Qed.

Lemma of_ordinal_value (mo : Month.t) : Month.of_ordinal (Month.value mo) = Some mo.
Proof. destruct mo; reflexivity. Qed.

Lemma of_ordinal_outside (n : Z) : ~ (1 <= n <= 12) -> Month.of_ordinal n = None.
Proof.
  intros Hn. destruct n as [|p|p]; try reflexivity.
  do 4 (try destruct p as [p|p|]); try reflexivity; lia.
Qed.

Lemma of_ordinal_inside (n : Z) :
  1 <= n <= 12 -> exists mo, Month.of_ordinal n = Some mo /\ Month.value mo = n.
Proof.
  intros Hn.
  assert (Hcases : n = 1 \/ n = 2 \/ n = 3 \/ n = 4 \/ n = 5 \/ n = 6 \/ n = 7 \/
                   n = 8 \/ n = 9 \/ n = 10 \/ n = 11 \/ n = 12) by lia.
  repeat destruct Hcases as [-> | Hcases]; try subst n;
    eexists; split; reflexivity.
Qed.

Lemma of_ordinal_Some (n : Z) (mo : Month.t) :
  Month.of_ordinal n = Some mo -> Month.value mo = n /\ 1 <= n <= 12.
Proof.
  intros Hn.
  destruct (Z_le_dec 1 n) as [Hlo|Hlo]; [destruct (Z_le_dec n 12) as [Hhi|Hhi]|].
  - destruct (of_ordinal_inside n (conj Hlo Hhi)) as (mo' & Hmo' & Hvalue).
    rewrite Hmo' in Hn. injection Hn as ->. auto.
  - rewrite of_ordinal_outside in Hn by lia. discriminate.
  - rewrite of_ordinal_outside in Hn by lia. discriminate.
Qed.

Lemma maxLengthInLeapYear_value (mo : Month.t) :
  maxLengthInLeapYear (Month.value mo) = Month.maxLength mo.
Proof. unfold maxLengthInLeapYear. now rewrite of_ordinal_value. Qed.

Lemma isValidValue_true (field : ChronoField) (n : Z) :
  isValidValue field n = true <-> minimum field <= n <= maximum field.
Proof. unfold isValidValue. rewrite andb_true_iff, !Z.leb_le. tauto. Qed.

Lemma isValidValue_false (field : ChronoField) (n : Z) :
  isValidValue field n = false <-> n < minimum field \/ maximum field < n.
Proof.
  unfold isValidValue. rewrite andb_false_iff, !Z.leb_gt. tauto.
Qed.

(* ===================================================================== *)
(** * Running the monad                                                    *)
(* ===================================================================== *)

Lemma bind_Return {A B : Type} (m : M A) (k : A -> M B) (st st' : State) (a : A) :
  m st = (Return a, st') -> bind m k st = k a st'.
Proof. unfold bind. now intros ->. Qed.

Lemma bind_Throw {A B : Type} (m : M A) (k : A -> M B) (st st' : State)
  (e : Exception) :
  m st = (Throw e, st') -> bind m k st = (Throw e, st').
Proof. unfold bind. now intros ->. Qed.

Lemma heap_log (c : Call) (st : State) : heap (log c st) = heap st.
Proof. reflexivity. Qed.

Lemma heap_alloc (obj : MonthDay) (st : State) :
  heap (alloc obj st) = (heap st ++ [obj])%list.
Proof. reflexivity. Qed.

Lemma calls_log (c : Call) (st : State) :
  calls (log c st) = (calls st ++ [c])%list.
Proof. reflexivity. Qed.

Lemma calls_alloc (obj : MonthDay) (st : State) : calls (alloc obj st) = calls st.
Proof. reflexivity. Qed.

Section Steps.

Context `{Collaborators}.

Lemma checkValidValue_inside (field : ChronoField) (n : Z) (st : State) :
  minimum field <= n <= maximum field ->
  checkValidValue field (number n) st
  = (Return n, log (call_checkValidValue field (number n)) st).
Proof.
  intros Hn. apply isValidValue_true in Hn.
  unfold checkValidValue, bind, record. now rewrite Hn.
Qed.

Lemma checkValidValue_outside (field : ChronoField) (n : Z) (st : State) :
  n < minimum field \/ maximum field < n ->
  checkValidValue field (number n) st
  = (Throw (DateTimeException (range_message field (number n))),
     log (call_checkValidValue field (number n)) st).
Proof.
  intros Hn. apply isValidValue_false in Hn.
  unfold checkValidValue, bind, record. now rewrite Hn.
Qed.

Lemma Month_of_inside (n : Z) (mo : Month.t) (st : State) :
  Month.of_ordinal n = Some mo ->
  Month_of (number n) st = (Return mo, log (call_Month_of (number n)) st).
Proof. intros Hn. unfold Month_of, bind, record. now rewrite Hn. Qed.

Lemma Month_of_outside (n : Z) (st : State) :
  ~ (1 <= n <= 12) ->
  Month_of (number n) st
  = (Throw (DateTimeException (range_message MONTH_OF_YEAR (number n))),
     log (call_Month_of (number n)) st).
Proof.
  intros Hn. unfold Month_of, bind, record.
  now rewrite of_ordinal_outside.
Qed.

(** The three ways [_ofMonthNumber] ends on a month and a number. *)
Lemma _ofMonthNumber_Return (mo : Month.t) (d : Z) (st : State) :
  1 <= d <= Month.maxLength mo ->
  _ofMonthNumber (Some mo) (number d) st
  = (Return (length (heap st)),
     alloc {| _month := Month.value mo; _day := d |}
       (log (call_maxLength mo)
          (log (call_checkValidValue DAY_OF_MONTH (number d)) st))).
Proof.
  intros Hd. pose proof (maxLength_bounds mo) as Hmax.
  unfold _ofMonthNumber. cbn [requireNonNull is_null option_Nullable].
  rewrite (bind_Return _ _ st st tt) by reflexivity.
  erewrite bind_Return by (apply checkValidValue_inside; cbv [minimum maximum]; lia).
  cbv [Month_maxLength bind record ret].
  destruct (Z.gtb_spec d (Month.maxLength mo)) as [Hgt|Hle]; [lia|].
  reflexivity.
Qed.

Lemma _ofMonthNumber_invalid (mo : Month.t) (d : Z) (st : State) :
  1 <= d <= 31 -> Month.maxLength mo < d ->
  _ofMonthNumber (Some mo) (number d) st
  = (Throw (combination_failure mo d),
     log (call_maxLength mo)
       (log (call_checkValidValue DAY_OF_MONTH (number d)) st)).
Proof.
  intros Hd Hmax.
  unfold _ofMonthNumber. cbn [requireNonNull is_null option_Nullable].
  rewrite (bind_Return _ _ st st tt) by reflexivity.
  erewrite bind_Return by (apply checkValidValue_inside; cbv [minimum maximum]; lia).
  cbv [Month_maxLength Month_name combination_failure bind record ret].
  destruct (Z.gtb_spec d (Month.maxLength mo)) as [Hgt|Hle]; [|lia].
  destruct (name_of_Month mo); reflexivity.
Qed.

Lemma _ofMonthNumber_range (mo : Month.t) (d : Z) (st : State) :
  d < 1 \/ 31 < d ->
  _ofMonthNumber (Some mo) (number d) st
  = (Throw (DateTimeException (range_message DAY_OF_MONTH (number d))),
     log (call_checkValidValue DAY_OF_MONTH (number d)) st).
Proof.
  intros Hd.
  unfold _ofMonthNumber. cbn [requireNonNull is_null option_Nullable].
  rewrite (bind_Return _ _ st st tt) by reflexivity.
  erewrite bind_Throw by (apply checkValidValue_outside; cbv [minimum maximum]; lia).
  reflexivity.
Qed.

(** [_ofNumberNumber] on two numbers: [Month.of], then [_ofMonthNumber]. *)
Lemma _ofNumberNumber_numbers (m d : Z) (mo : Month.t) (st : State) :
  Month.of_ordinal m = Some mo ->
  _ofNumberNumber (number m) (number d) st
  = _ofMonthNumber (Some mo) (number d) (log (call_Month_of (number m)) st).
Proof.
  intros Hm. unfold _ofNumberNumber.
  rewrite (bind_Return _ _ st st tt) by reflexivity.
  rewrite (bind_Return _ _ st st tt) by reflexivity.
  erewrite bind_Return by (apply Month_of_inside; eassumption).
  reflexivity.
Qed.

Lemma _ofNumberNumber_Return (m d : Z) (mo : Month.t) (st : State) :
  Month.of_ordinal m = Some mo -> 1 <= d <= Month.maxLength mo ->
  _ofNumberNumber (number m) (number d) st
  = (Return (length (heap st)),
     alloc {| _month := m; _day := d |}
       (log (call_maxLength mo)
          (log (call_checkValidValue DAY_OF_MONTH (number d))
             (log (call_Month_of (number m)) st)))).
Proof.
  intros Hmo Hd. destruct (of_ordinal_Some _ _ Hmo) as [<- _].
  rewrite (_ofNumberNumber_numbers _ _ mo) by assumption.
  now rewrite _ofMonthNumber_Return.
Qed.

(** [_ofNumberNumber] refuses a month outside 1..12 before it looks at the
    day. *)
Lemma _ofNumberNumber_month_outside (m : Z) (dayOfMonth : Value)
  (st : State) :
  m < 1 \/ 12 < m -> is_null dayOfMonth = false ->
  _ofNumberNumber (number m) dayOfMonth st
  = (Throw (DateTimeException (range_message MONTH_OF_YEAR (number m))),
     log (call_Month_of (number m)) st).
Proof.
  intros Hm Hday. unfold _ofNumberNumber.
  rewrite (bind_Return _ _ st st tt) by reflexivity.
  rewrite (bind_Return _ _ st st tt)
    by (unfold requireNonNull; now rewrite Hday).
  erewrite bind_Throw by (apply Month_of_outside; lia).
  reflexivity.
Qed.

(** When [_ofNumberNumber] returns, it has allocated the instance of its two
    arguments. *)
Lemma _ofNumberNumber_Return_inv (m d : Z) (st st' : State)
  (this : loc) :
  _ofNumberNumber (number m) (number d) st = (Return this, st') ->
  this = length (heap st) /\
  heap st' = (heap st ++ [{| _month := m; _day := d |}])%list.
Proof.
  intros Hrun.
  destruct (Z_le_dec 1 m) as [Hlo|Hlo]; [destruct (Z_le_dec m 12) as [Hhi|Hhi]|];
    try (rewrite _ofNumberNumber_month_outside in Hrun by (lia || reflexivity);
         discriminate).
  destruct (of_ordinal_inside m (conj Hlo Hhi)) as (mo & Hmo & Hvalue).
  destruct (Z_le_dec 1 d) as [Hd1|Hd1]; [destruct (Z_le_dec d 31) as [Hd31|Hd31]|];
    try (rewrite (_ofNumberNumber_numbers _ _ mo), _ofMonthNumber_range in Hrun
           by (assumption || lia);
         discriminate).
  destruct (Z_le_dec d (Month.maxLength mo)) as [Hmax|Hmax].
  - rewrite (_ofNumberNumber_Return _ _ mo) in Hrun by (assumption || lia).
    injection Hrun as <- <-. split; reflexivity.
  - rewrite (_ofNumberNumber_numbers _ _ mo), _ofMonthNumber_invalid in Hrun
      by (assumption || lia).
    discriminate.
Qed.

(** The dispatch of [MonthDay.of]. *)
Lemma of_Month (mo : Month.t) (dayOfMonth : Value) :
  of_ [MonthRef mo; dayOfMonth] = _ofMonthNumber (Some mo) dayOfMonth.
Proof. reflexivity. Qed.

Lemma of_numbers (m : Z) (dayOfMonth : Value) :
  of_ [number m; dayOfMonth] = _ofNumberNumber (number m) dayOfMonth.
Proof. reflexivity. Qed.

(** The source's text of [_ofNumberNumber]: its last call is to [MonthDay.of],
    which takes the branch of [_ofMonthNumber]. *)
Lemma _ofNumberNumber_calls_of (month dayOfMonth : Value) :
  _ofNumberNumber month dayOfMonth
  = (let! _ := requireNonNull month "month" in
     let! _ := requireNonNull dayOfMonth "dayOfMonth" in
     let! m := Month_of month in
     of_ [MonthRef m; dayOfMonth]).
Proof. reflexivity. Qed.

End Steps.

(** ** Reading an allocated instance *)

Lemma lookup_alloc (obj : MonthDay) (st : State) :
  heap (alloc obj st) !! length (heap st) = Some obj.
Proof. rewrite heap_alloc. now apply list_lookup_middle. Qed.

Lemma monthValue_allocated (this : loc) (obj : MonthDay) (st : State) :
  heap st !! this = Some obj -> monthValue this st = (Return (_month obj), st).
Proof. intros Hobj. unfold monthValue, bind, this_object. now rewrite Hobj. Qed.

Lemma dayOfMonth_allocated (this : loc) (obj : MonthDay) (st : State) :
  heap st !! this = Some obj -> dayOfMonth this st = (Return (_day obj), st).
Proof. intros Hobj. unfold dayOfMonth, bind, this_object. now rewrite Hobj. Qed.

Lemma equals_allocated (this other : loc) (a b : MonthDay) (st : State) :
  heap st !! this = Some a -> heap st !! other = Some b ->
  equals this (MonthDayRef other) st
  = (Return ((this =? other)%nat || ((_month a =? _month b) && (_day a =? _day b))),
     st).
Proof.
  intros Ha Hb. unfold equals, same_object.
  destruct (Nat.eqb_spec this other) as [->|Hne]; [reflexivity|].
  rewrite (bind_Return _ _ st st (_month a)) by now apply monthValue_allocated.
  rewrite (bind_Return _ _ st st (_month b)) by now apply monthValue_allocated.
  destruct (_month a =? _month b); [|reflexivity].
  rewrite (bind_Return _ _ st st (_day a)) by now apply dayOfMonth_allocated.
  rewrite (bind_Return _ _ st st (_day b)) by now apply dayOfMonth_allocated.
  reflexivity.
Qed.

(* ===================================================================== *)
(** * Construction and validation                                         *)
(* ===================================================================== *)

(** C1: for every month number m of 1..12 and every day d with
    1 <= d <= maxLengthInLeapYear(m), [ofNumbers(m, d)] returns a new instance
    whose [monthValue()] is m and whose [dayOfMonth()] is d; and
    [ofNumbers(2, 29)] succeeds in every state, its result being [equals] to
    that of [ofMonthAndDay(FEBRUARY, 29)]. *)
Theorem ofNumbers_valid `{Collaborators} :
  (forall (st : State) (m d : Z),
      1 <= m <= 12 -> 1 <= d <= maxLengthInLeapYear m ->
      exists st' : State,
        _ofNumberNumber (number m) (number d) st = (Return (length (heap st)), st') /\
        heap st' = (heap st ++ [{| _month := m; _day := d |}])%list /\
        monthValue (length (heap st)) st' = (Return m, st') /\
        dayOfMonth (length (heap st)) st' = (Return d, st')) /\
  (forall st : State,
      exists st1 st2 : State,
        _ofNumberNumber (number 2) (number 29) st = (Return (length (heap st)), st1) /\
        _ofMonthNumber (Some Month.FEBRUARY) (number 29) st1
        = (Return (length (heap st1)), st2) /\
        equals (length (heap st)) (MonthDayRef (length (heap st1))) st2
        = (Return true, st2)).
Proof.
  assert (Hgeneral : forall (st : State) (m d : Z),
      1 <= m <= 12 -> 1 <= d <= maxLengthInLeapYear m ->
      exists st' : State,
        _ofNumberNumber (number m) (number d) st = (Return (length (heap st)), st') /\
        heap st' = (heap st ++ [{| _month := m; _day := d |}])%list /\
        monthValue (length (heap st)) st' = (Return m, st') /\
        dayOfMonth (length (heap st)) st' = (Return d, st')).
  { intros st m d Hm Hd.
    destruct (of_ordinal_inside m Hm) as (mo & Hmo & <-).
    rewrite maxLengthInLeapYear_value in Hd.
    rewrite (_ofNumberNumber_numbers _ _ mo) by assumption.
    rewrite _ofMonthNumber_Return by assumption.
    eexists. split; [reflexivity|]. split; [reflexivity|].
    split.
    - apply (monthValue_allocated _ {| _month := Month.value mo; _day := d |}).
      exact (lookup_alloc _ _).
    - apply (dayOfMonth_allocated _ {| _month := Month.value mo; _day := d |}).
      exact (lookup_alloc _ _). }
  split; [exact Hgeneral|].
  intros st.
  destruct (Hgeneral st 2 29) as (st1 & Hof & Hheap1 & _ & _);
    [lia | unfold maxLengthInLeapYear; simpl; lia |].
  exists st1. rewrite Hof.
  rewrite _ofMonthNumber_Return by (simpl; lia).
  eexists. split; [reflexivity|]. split; [reflexivity|].
  rewrite (equals_allocated _ _ {| _month := 2; _day := 29 |}
             {| _month := 2; _day := 29 |}).
  - simpl. now rewrite orb_true_r.
  - rewrite heap_alloc, !heap_log, Hheap1.
    rewrite lookup_app_l by (rewrite length_app; simpl; lia).
    now apply list_lookup_middle.
  - exact (lookup_alloc _ (log _ (log _ st1))).
Qed.

Lemma ofNumbers_valid_witness :
  (1 <= 6 <= 12 /\ 1 <= 30 <= maxLengthInLeapYear 6) /\
  exists st' : State,
    @_ofNumberNumber plain (number 6) (number 30) initial
    = (Return (length (heap initial)), st') /\
    heap st' = (heap initial ++ [{| _month := 6; _day := 30 |}])%list /\
    monthValue (length (heap initial)) st' = (Return 6, st') /\
    dayOfMonth (length (heap initial)) st' = (Return 30, st').
Proof.
  assert (Hm : 1 <= 6 <= 12) by lia.
  assert (Hd : 1 <= 30 <= maxLengthInLeapYear 6)
    by (unfold maxLengthInLeapYear; simpl; lia).
  split; [split; assumption|].
  exact (proj1 (@ofNumbers_valid plain) initial 6 30 Hm Hd).
Defined.

(** C3: a day within 1..31 that exceeds the month's length in a leap year
    makes [ofMonthAndDay] and [ofNumbers] throw and create no instance, but
    what they throw is the [DateTimeException] with the day and the month's
    display name only if [month.name()] answers: an exception of that call
    leaves the factories in its place.  With a [Month] that has no method
    [name], [ofNumbers(4, 31)], [ofNumbers(9, 31)] and [ofNumbers(2, 30)]
    throw the [TypeError] of the call, in every state. *)
Theorem invalid_combination_needs_name :
  (forall `{Collaborators} (st : State) (m d : Z) (mo : Month.t) (ex : Exception),
      Month.of_ordinal m = Some mo ->
      1 <= d <= 31 -> maxLengthInLeapYear m < d ->
      name_of_Month mo = Throw ex ->
      (outcome (_ofMonthNumber (Some mo) (number d)) st = Throw ex /\
       heap (final (_ofMonthNumber (Some mo) (number d)) st) = heap st) /\
      (outcome (_ofNumberNumber (number m) (number d)) st = Throw ex /\
       heap (final (_ofNumberNumber (number m) (number d)) st) = heap st)) /\
  (forall st : State,
      let ex := {| exception_name := "TypeError";
                   exception_message := "month.name is not a function" |} in
      outcome (@_ofNumberNumber plain (number 4) (number 31)) st = Throw ex /\
      outcome (@_ofNumberNumber plain (number 9) (number 31)) st = Throw ex /\
      outcome (@_ofNumberNumber plain (number 2) (number 30)) st = Throw ex /\
      exception_name ex <> "DateTimeException").
Proof.
  assert (Hgeneral :
    forall `{Collaborators} (st : State) (m d : Z) (mo : Month.t) (ex : Exception),
      Month.of_ordinal m = Some mo ->
      1 <= d <= 31 -> maxLengthInLeapYear m < d ->
      name_of_Month mo = Throw ex ->
      (outcome (_ofMonthNumber (Some mo) (number d)) st = Throw ex /\
       heap (final (_ofMonthNumber (Some mo) (number d)) st) = heap st) /\
      (outcome (_ofNumberNumber (number m) (number d)) st = Throw ex /\
       heap (final (_ofNumberNumber (number m) (number d)) st) = heap st)).
  { intros C st m d mo ex Hmo Hd Hmax Hname.
    unfold maxLengthInLeapYear in Hmax. rewrite Hmo in Hmax.
    unfold outcome, final.
    rewrite (_ofNumberNumber_numbers _ _ mo) by assumption.
    rewrite !_ofMonthNumber_invalid by assumption.
    unfold combination_failure. rewrite Hname. repeat split. }
  split; [exact Hgeneral|].
  intros st ex. split; [|split; [|split]].
  - apply (Hgeneral plain st 4 31 Month.APRIL ex);
      [reflexivity | lia | unfold maxLengthInLeapYear; simpl; lia | reflexivity].
  - apply (Hgeneral plain st 9 31 Month.SEPTEMBER ex);
      [reflexivity | lia | unfold maxLengthInLeapYear; simpl; lia | reflexivity].
  - apply (Hgeneral plain st 2 30 Month.FEBRUARY ex);
      [reflexivity | lia | unfold maxLengthInLeapYear; simpl; lia | reflexivity].
  - discriminate.
Qed.

Lemma invalid_combination_needs_name_witness :
  (Month.of_ordinal 9 = Some Month.SEPTEMBER /\ 1 <= 31 <= 31 /\
   maxLengthInLeapYear 9 < 31 /\
   @name_of_Month plain Month.SEPTEMBER
   = Throw {| exception_name := "TypeError";
              exception_message := "month.name is not a function" |}) /\
  outcome (@_ofMonthNumber plain (Some Month.SEPTEMBER) (number 31)) initial
  = Throw {| exception_name := "TypeError";
             exception_message := "month.name is not a function" |}.
Proof.
  assert (Hmo : Month.of_ordinal 9 = Some Month.SEPTEMBER) by reflexivity.
  assert (Hd : 1 <= 31 <= 31) by lia.
  assert (Hmax : maxLengthInLeapYear 9 < 31)
    by (unfold maxLengthInLeapYear; simpl; lia).
  assert (Hname : @name_of_Month plain Month.SEPTEMBER
                  = Throw {| exception_name := "TypeError";
                             exception_message := "month.name is not a function" |})
    by reflexivity.
  split; [auto|].
  exact (proj1 (proj1 (proj1 invalid_combination_needs_name
                         plain initial 9 31 Month.SEPTEMBER _ Hmo Hd Hmax Hname))).
Defined.

(** C4: a day outside 1..31 (in [ofMonthAndDay] and [ofNumbers]) or a month
    outside 1..12 (in [ofNumbers]) is refused with the [DateTimeException] of
    the range check; the state the exception leaves shows that
    [month.maxLength()], the compatibility check, was not reached.
    [ofNumbers(13, 1)] and [ofNumbers(0, 1)] fail so. *)
Theorem range_failure_first `{Collaborators} :
  (forall (st : State) (mo : Month.t) (d : Z),
      d < 1 \/ 31 < d ->
      _ofMonthNumber (Some mo) (number d) st
      = (Throw (DateTimeException (range_message DAY_OF_MONTH (number d))),
         log (call_checkValidValue DAY_OF_MONTH (number d)) st)) /\
  (forall (st : State) (m d : Z),
      1 <= m <= 12 -> d < 1 \/ 31 < d ->
      _ofNumberNumber (number m) (number d) st
      = (Throw (DateTimeException (range_message DAY_OF_MONTH (number d))),
         log (call_checkValidValue DAY_OF_MONTH (number d))
           (log (call_Month_of (number m)) st))) /\
  (forall (st : State) (m : Z) (dayOfMonth : Value),
      m < 1 \/ 12 < m -> is_null dayOfMonth = false ->
      _ofNumberNumber (number m) dayOfMonth st
      = (Throw (DateTimeException (range_message MONTH_OF_YEAR (number m))),
         log (call_Month_of (number m)) st)) /\
  (forall st : State,
      _ofNumberNumber (number 13) (number 1) st
      = (Throw (DateTimeException (range_message MONTH_OF_YEAR (number 13))),
         log (call_Month_of (number 13)) st) /\
      _ofNumberNumber (number 0) (number 1) st
      = (Throw (DateTimeException (range_message MONTH_OF_YEAR (number 0))),
         log (call_Month_of (number 0)) st)).
Proof.
  split; [|split; [|split]].
  - intros st mo d Hd. now apply _ofMonthNumber_range.
  - intros st m d Hm Hd.
    destruct (of_ordinal_inside m Hm) as (mo & Hmo & _).
    rewrite (_ofNumberNumber_numbers _ _ mo) by assumption.
    now apply _ofMonthNumber_range.
  - intros st m dayOfMonth. apply _ofNumberNumber_month_outside.
  - intros st. split; apply _ofNumberNumber_month_outside; solve [lia | reflexivity].
Qed.

Lemma range_failure_first_witness :
  (32 < 1 \/ 31 < 32) /\
  @_ofMonthNumber plain (Some Month.JANUARY) (number 32) initial
  = (Throw (DateTimeException (@range_message plain DAY_OF_MONTH (number 32))),
     log (call_checkValidValue DAY_OF_MONTH (number 32)) initial).
Proof.
  assert (Hd : 32 < 1 \/ 31 < 32) by lia.
  split; [exact Hd|].
  exact (proj1 (@range_failure_first plain) initial Month.JANUARY 32 Hd).
Defined.

(* ===================================================================== *)
(** * Conversion from a temporal object                                   *)
(* ===================================================================== *)

(** C5: [from] hands a [MonthDay] back as it is, the same reference and an
    unchanged state; so what [from] returned, [from] returns again. *)
Theorem from_MonthDay_identity `{Collaborators} :
  (forall (st : State) (x : loc), from (MonthDayRef x) st = (Return x, st)) /\
  (forall (st st' : State) (source : Value) (x : loc),
      from source st = (Return x, st') ->
      from (MonthDayRef x) st' = (Return x, st')).
Proof.
  split; reflexivity.
Qed.

Lemma from_MonthDay_identity_witness :
  let st' := final (@from plain (AccessorRef a_date)) initial in
  @from plain (AccessorRef a_date) initial = (Return 0%nat, st') /\
  @from plain (MonthDayRef 0%nat) st' = (Return 0%nat, st').
Proof.
  intros st'.
  assert (Hfrom : @from plain (AccessorRef a_date) initial = (Return 0%nat, st'))
    by reflexivity.
  split; [exact Hfrom|].
  exact (proj2 (@from_MonthDay_identity plain) initial st' _ 0%nat Hfrom).
Defined.

(* ===================================================================== *)
(** * Equality                                                            *)
(* ===================================================================== *)

Lemma monthValue_Return (this : loc) (m : Z) (st st' : State) :
  monthValue this st = (Return m, st') ->
  exists obj, heap st !! this = Some obj /\ _month obj = m.
Proof.
  unfold monthValue, bind, this_object.
  destruct (heap st !! this) as [obj|]; [|discriminate].
  intros [= <- _]. now exists obj.
Qed.

Lemma dayOfMonth_Return (this : loc) (d : Z) (st st' : State) :
  dayOfMonth this st = (Return d, st') ->
  exists obj, heap st !! this = Some obj /\ _day obj = d.
Proof.
  unfold dayOfMonth, bind, this_object.
  destruct (heap st !! this) as [obj|]; [|discriminate].
  intros [= <- _]. now exists obj.
Qed.

Lemma equals_other_class (this : loc) (obj : Value) (st : State) :
  instanceof_MonthDay obj = false -> equals this obj st = (Return false, st).
Proof. destruct obj; try discriminate; reflexivity. Qed.

Lemma equals_same (this : loc) (st : State) :
  equals this (MonthDayRef this) st = (Return true, st).
Proof. unfold equals, same_object. now rewrite Nat.eqb_refl. Qed.

Lemma lookup_snoc_here {A : Type} (l : list A) (x : A) :
  (l ++ [x])%list !! length l = Some x.
Proof. now apply list_lookup_middle. Qed.

Lemma lookup_snoc_before {A : Type} (l : list A) (x y : A) (i : nat) :
  l !! i = Some y -> (l ++ [x])%list !! i = Some y.
Proof. intros Hi. now apply lookup_app_l_Some. Qed.

(** C6: [equals] answers true for the same object; for another [MonthDay],
    true exactly when [monthValue()] and [dayOfMonth()] agree; false for
    anything else, null included.  It is reflexive and symmetric, and of
    [ofNumbers(3,15)], [ofNumbers(3,15)] and [ofNumbers(3,16)] the first two
    are equal and the first and the third are not. *)
Theorem equals_contract `{Collaborators} :
  (forall (st : State) (this : loc) (obj : Value),
      same_object this obj = true -> equals this obj st = (Return true, st)) /\
  (forall (st : State) (this other : loc) (m1 d1 m2 d2 : Z),
      this <> other ->
      monthValue this st = (Return m1, st) -> dayOfMonth this st = (Return d1, st) ->
      monthValue other st = (Return m2, st) -> dayOfMonth other st = (Return d2, st) ->
      exists b : bool,
        equals this (MonthDayRef other) st = (Return b, st) /\
        (b = true <-> m1 = m2 /\ d1 = d2)) /\
  (forall (st : State) (this : loc) (obj : Value),
      instanceof_MonthDay obj = false -> equals this obj st = (Return false, st)) /\
  (forall (st : State) (this : loc), equals this null st = (Return false, st)) /\
  (forall (st : State) (this : loc),
      equals this (MonthDayRef this) st = (Return true, st)) /\
  (forall (st : State) (this other : loc) (a b : MonthDay),
      heap st !! this = Some a -> heap st !! other = Some b ->
      equals this (MonthDayRef other) st = equals other (MonthDayRef this) st) /\
  (forall st : State,
      exists (a b c : loc) (st' : State),
        (let! a := _ofNumberNumber (number 3) (number 15) in
         let! b := _ofNumberNumber (number 3) (number 15) in
         let! c := _ofNumberNumber (number 3) (number 16) in
         ret (a, b, c)) st = (Return (a, b, c), st') /\
        equals a (MonthDayRef b) st' = (Return true, st') /\
        equals b (MonthDayRef a) st' = (Return true, st') /\
        equals a (MonthDayRef c) st' = (Return false, st') /\
        equals a null st' = (Return false, st')).
Proof.
  split; [|split; [|split; [|split; [|split; [|split]]]]].
  - intros st this obj Hsame. unfold equals. now rewrite Hsame.
  - intros st this other m1 d1 m2 d2 Hne Hm1 Hd1 Hm2 Hd2.
    destruct (monthValue_Return _ _ _ _ Hm1) as (a & Ha & <-).
    destruct (dayOfMonth_Return _ _ _ _ Hd1) as (a' & Ha' & <-).
    destruct (monthValue_Return _ _ _ _ Hm2) as (b & Hb & <-).
    destruct (dayOfMonth_Return _ _ _ _ Hd2) as (b' & Hb' & <-).
    rewrite Ha in Ha'. injection Ha' as <-.
    rewrite Hb in Hb'. injection Hb' as <-.
    eexists. split; [apply (equals_allocated _ _ a b); assumption|].
    apply Nat.eqb_neq in Hne. rewrite Hne. simpl.
    now rewrite andb_true_iff, !Z.eqb_eq.
  - intros st this obj. apply equals_other_class.
  - intros st this. reflexivity.
  - intros st this. apply equals_same.
  - intros st this other a b Ha Hb.
    rewrite (equals_allocated _ _ a b), (equals_allocated _ _ b a) by assumption.
    now rewrite Nat.eqb_sym, (Z.eqb_sym (_month a)), (Z.eqb_sym (_day a)).
  - intros st.
    set (new m d s := alloc {| _month := m; _day := d |}
                        (log (call_maxLength Month.MARCH)
                           (log (call_checkValidValue DAY_OF_MONTH (number d))
                              (log (call_Month_of (number m)) s)))).
    exists (length (heap st)), (length (heap (new 3 15 st))),
      (length (heap (new 3 15 (new 3 15 st)))), (new 3 16 (new 3 15 (new 3 15 st))).
    assert (Ha : heap (new 3 16 (new 3 15 (new 3 15 st))) !! length (heap st)
                 = Some {| _month := 3; _day := 15 |}).
    { apply lookup_snoc_before, lookup_snoc_before, lookup_snoc_here. }
    assert (Hb : heap (new 3 16 (new 3 15 (new 3 15 st)))
                   !! length (heap (new 3 15 st))
                 = Some {| _month := 3; _day := 15 |}).
    { apply lookup_snoc_before. exact (lookup_snoc_here (heap (new 3 15 st)) _). }
    assert (Hc : heap (new 3 16 (new 3 15 (new 3 15 st)))
                   !! length (heap (new 3 15 (new 3 15 st)))
                 = Some {| _month := 3; _day := 16 |}).
    { exact (lookup_snoc_here (heap (new 3 15 (new 3 15 st))) _). }
    assert (Hac : Nat.eqb (length (heap st))
                    (length (heap (new 3 15 (new 3 15 st)))) = false).
    { apply Nat.eqb_neq. subst new. cbn [heap alloc log].
      rewrite !length_app. simpl. lia. }
    split; [|split; [|split; [|split]]].
    + erewrite bind_Return
        by (apply (_ofNumberNumber_Return 3 15 Month.MARCH); [reflexivity|simpl; lia]).
      erewrite bind_Return
        by (apply (_ofNumberNumber_Return 3 15 Month.MARCH); [reflexivity|simpl; lia]).
      erewrite bind_Return
        by (apply (_ofNumberNumber_Return 3 16 Month.MARCH); [reflexivity|simpl; lia]).
      reflexivity.
    + rewrite (equals_allocated _ _ _ _ _ Ha Hb). simpl. now rewrite orb_true_r.
    + rewrite (equals_allocated _ _ _ _ _ Hb Ha). simpl. now rewrite orb_true_r.
    + rewrite (equals_allocated _ _ _ _ _ Ha Hc). now rewrite Hac.
    + reflexivity.
Qed.

Lemma equals_contract_witness :
  let st := final (let! a := @_ofNumberNumber plain (number 3) (number 15) in
                   @_ofNumberNumber plain (number 3) (number 16)) initial in
  (heap st !! 0%nat = Some {| _month := 3; _day := 15 |} /\
   heap st !! 1%nat = Some {| _month := 3; _day := 16 |}) /\
  equals 0%nat (MonthDayRef 1%nat) st = equals 1%nat (MonthDayRef 0%nat) st.
Proof.
  intros st.
  assert (Ha : heap st !! 0%nat = Some {| _month := 3; _day := 15 |}) by reflexivity.
  assert (Hb : heap st !! 1%nat = Some {| _month := 3; _day := 16 |}) by reflexivity.
  split; [split; assumption|].
  exact (proj1 (proj2 (proj2 (proj2 (proj2 (proj2 (@equals_contract plain))))))
           st 0%nat 1%nat _ _ Ha Hb).
Defined.

(* ===================================================================== *)
(** * What a call leaves unchanged                                        *)
(* ===================================================================== *)

Lemma preserves_ret {X A : Type} (f : State -> X) (a : A) : preserves f (ret a).
Proof. intros st. reflexivity. Qed.

Lemma preserves_throw {X A : Type} (f : State -> X) (e : Exception) :
  preserves f (@throw A e).
Proof. intros st. reflexivity. Qed.

Lemma preserves_bind {X A B : Type} (f : State -> X) (m : M A) (k : A -> M B) :
  preserves f m -> (forall a, preserves f (k a)) -> preserves f (bind m k).
Proof.
  intros Hm Hk st. unfold bind. specialize (Hm st).
  destruct (m st) as [[a|e] st']; simpl in *.
  - now rewrite Hk.
  - assumption.
Qed.

Lemma preserves_try_catch {X A : Type} (f : State -> X) (body : M A)
  (handler : Exception -> M A) :
  preserves f body -> (forall ex, preserves f (handler ex)) ->
  preserves f (try_catch body handler).
Proof.
  intros Hbody Hhandler st. unfold try_catch. specialize (Hbody st).
  destruct (body st) as [[a|ex] st']; simpl in *.
  - assumption.
  - now rewrite Hhandler.
Qed.

Lemma preserves_this_object {X : Type} (f : State -> X) (this : loc) :
  preserves f (this_object this).
Proof. intros st. unfold this_object. now destruct (heap st !! this). Qed.

Lemma preserves_read_PARSER {X : Type} (f : State -> X) : preserves f read_PARSER.
Proof. intros st. reflexivity. Qed.

Lemma preserves_read_MonthDay_FROM {X : Type} (f : State -> X) :
  preserves f read_MonthDay_FROM.
Proof. intros st. reflexivity. Qed.

Lemma preserves_record_heap (c : Call) : preserves heap (record c).
Proof. intros st. reflexivity. Qed.

Lemma clock_readings_log (c : Call) (st : State) :
  clock_readings (log c st)
  = (clock_readings st + (if is_clock_reading c then 1 else 0))%nat.
Proof.
  unfold clock_readings. rewrite calls_log, List.filter_app, length_app.
  simpl. now destruct (is_clock_reading c).
Qed.

Lemma preserves_record_readings (c : Call) :
  is_clock_reading c = false -> preserves clock_readings (record c).
Proof.
  intros Hc st. unfold record. simpl. rewrite clock_readings_log, Hc. lia.
Qed.

Lemma preserves_new_MonthDay_readings (m d : Z) :
  preserves clock_readings (new_MonthDay m d).
Proof. intros st. reflexivity. Qed.

(** One step of a proof that a computation preserves an observation: through
    a bind, a handler, or a branch of the code. *)
Ltac preserves_step :=
  first
    [ apply preserves_ret
    | apply preserves_throw
    | apply preserves_this_object
    | apply preserves_read_PARSER
    | apply preserves_read_MonthDay_FROM
    | apply preserves_record_heap
    | apply preserves_new_MonthDay_readings
    | apply preserves_record_readings; reflexivity
    | solve [intros ?; reflexivity]
    | apply preserves_bind; [|intros ?]
    | apply preserves_try_catch; [|intros ?]
    | match goal with
      | |- preserves _ (if ?b then _ else _) => destruct b
      | |- preserves _ (match ?x with _ => _ end) => destruct x
      end ].

Section Preservation.

Context `{Collaborators}.

Lemma preserves_requireNonNull {X A : Type} `{Nullable A} (f : State -> X)
  (value : A) (parameterName : string) :
  preserves f (requireNonNull value parameterName).
Proof. unfold requireNonNull. repeat preserves_step. Qed.

Lemma preserves_requireInstance {X : Type} (f : State -> X) (value : Value)
  (_class : Value -> bool) (parameterName : string) :
  preserves f (requireInstance value _class parameterName).
Proof. unfold requireInstance. repeat preserves_step. Qed.

Lemma checkValidValue_heap (field : ChronoField) (value : Value) :
  preserves heap (checkValidValue field value).
Proof. unfold checkValidValue. repeat preserves_step. Qed.

Lemma Month_of_heap (value : Value) : preserves heap (Month_of value).
Proof. unfold Month_of. repeat preserves_step. Qed.

Lemma Month_maxLength_heap (mo : Month.t) : preserves heap (Month_maxLength mo).
Proof. unfold Month_maxLength. repeat preserves_step. Qed.

Lemma LocalDate_now_heap (clock : Clock) : preserves heap (LocalDate_now clock).
Proof. unfold LocalDate_now. repeat preserves_step. Qed.

Lemma TemporalAccessor_get_heap (t : TemporalAccessor) (field : ChronoField) :
  preserves heap (TemporalAccessor_get t field).
Proof. unfold TemporalAccessor_get. repeat preserves_step. Qed.

(** [_ofMonthNumber] does not read a clock. *)
Lemma _ofMonthNumber_readings (month : option Month.t) (dayOfMonth : Value) :
  preserves clock_readings (_ofMonthNumber month dayOfMonth).
Proof.
  unfold _ofMonthNumber, checkValidValue, Month_maxLength, Month_name.
  apply preserves_bind; [apply preserves_requireNonNull|intros _].
  repeat preserves_step.
Qed.

(** The accessors and [equals] change nothing of the heap; neither does
    [_init()]. *)
Lemma monthValue_heap (this : loc) : preserves heap (monthValue this).
Proof. unfold monthValue. repeat preserves_step. Qed.

Lemma dayOfMonth_heap (this : loc) : preserves heap (dayOfMonth this).
Proof. unfold dayOfMonth. repeat preserves_step. Qed.

Lemma month_heap (this : loc) : preserves heap (month this).
Proof. unfold month, Month_of. repeat preserves_step. Qed.

Lemma equals_heap (this : loc) (obj : Value) : preserves heap (equals this obj).
Proof. unfold equals, monthValue, dayOfMonth. repeat preserves_step. Qed.

Lemma _init_heap : preserves heap _init.
Proof. intros st. reflexivity. Qed.

End Preservation.

(* ===================================================================== *)
(** * The current month-day                                               *)
(* ===================================================================== *)

(** C7: for a clock that is not null, [nowFromClock(clock)] reads the date
    from the clock, once, and hands its month and its day to
    [ofMonthAndDay]; with a clock fixed at 2021-02-17 the result [equals]
    that of [ofNumbers(2, 17)]. *)
Theorem nowFromClock_delegates `{Collaborators} :
  (forall (st : State) (clock : Clock),
      _nowClock (Some clock) st
      = _ofMonthNumber (Some (LocalDate.month (today clock)))
          (number (LocalDate.dayOfMonth (today clock)))
          (log (call_LocalDate_now clock) st)) /\
  (forall (st : State) (clock : Clock),
      clock_readings (final (_nowClock (Some clock)) st) = S (clock_readings st)) /\
  (forall st : State,
      exists st1 st2 : State,
        _nowClock (Some (fixedClockAt (LocalDate.make 2021 Month.FEBRUARY 17))) st
        = (Return (length (heap st)), st1) /\
        _ofNumberNumber (number 2) (number 17) st1
        = (Return (length (heap st1)), st2) /\
        equals (length (heap st)) (MonthDayRef (length (heap st1))) st2
        = (Return true, st2)).
Proof.
  assert (Hdelegates : forall (st : State) (clock : Clock),
      _nowClock (Some clock) st
      = _ofMonthNumber (Some (LocalDate.month (today clock)))
          (number (LocalDate.dayOfMonth (today clock)))
          (log (call_LocalDate_now clock) st)) by reflexivity.
  split; [exact Hdelegates|]. split.
  - intros st clock. unfold final. rewrite Hdelegates.
    rewrite _ofMonthNumber_readings, clock_readings_log. simpl. lia.
  - intros st. rewrite Hdelegates. simpl today.
    cbn [LocalDate.month LocalDate.dayOfMonth].
    rewrite _ofMonthNumber_Return by (simpl; lia).
    eexists. eexists. split; [reflexivity|].
    rewrite (_ofNumberNumber_Return 2 17 Month.FEBRUARY)
      by (reflexivity || (simpl; lia)).
    split; [reflexivity|].
    rewrite (equals_allocated _ _ {| _month := 2; _day := 17 |}
               {| _month := 2; _day := 17 |}).
    + simpl. now rewrite orb_true_r.
    + apply lookup_snoc_before.
      exact (lookup_snoc_here (heap st) _).
    + match goal with
      | |- heap (alloc ?obj ?s) !! _ = _ => exact (lookup_alloc obj s)
      end.
Qed.

(* ===================================================================== *)
(** * The invariant of the data model                                     *)
(* ===================================================================== *)

Lemma preserves_creates_valid {A : Type} (m : M A) :
  preserves heap m -> creates_valid m.
Proof. intros Hm st. left. apply Hm. Qed.

Lemma creates_valid_bind {A B : Type} (m : M A) (k : A -> M B) :
  preserves heap m -> (forall a, creates_valid (k a)) -> creates_valid (bind m k).
Proof.
  intros Hm Hk st. unfold bind. specialize (Hm st).
  destruct (m st) as [[a|e] st']; simpl in *.
  - rewrite <- Hm. apply Hk.
  - now left.
Qed.

Lemma creates_valid_returning {A : Type} (wrap : A -> Value) (m : M A) :
  creates_valid m -> creates_valid (returning wrap m).
Proof.
  intros Hm st. unfold returning, bind. specialize (Hm st).
  destruct (m st) as [[a|e] st']; simpl in *.
  - destruct Hm as [Hm|(obj & a' & Hobj & _ & Hheap)]; [now left|].
    right. now exists obj, (wrap a).
  - destruct Hm as [Hm|(obj & a' & _ & Hr & _)]; [now left|discriminate].
Qed.

Lemma creates_valid_try_catch {A : Type} (body : M A) (handler : Exception -> M A) :
  creates_valid body -> (forall ex, preserves heap (handler ex)) ->
  creates_valid (try_catch body handler).
Proof.
  intros Hbody Hhandler st. unfold try_catch. specialize (Hbody st).
  destruct (body st) as [[a|ex] st']; simpl in *.
  - assumption.
  - left. rewrite Hhandler.
    destruct Hbody as [Hbody|(obj & a' & _ & Hr & _)]; [assumption|discriminate].
Qed.

Section Invariant.

Context `{Collaborators}.

Lemma creates_valid__ofMonthNumber (month : option Month.t) (dayOfMonth : Value) :
  creates_valid (_ofMonthNumber month dayOfMonth).
Proof.
  unfold _ofMonthNumber.
  apply creates_valid_bind; [apply preserves_requireNonNull|intros _].
  intros st. unfold bind.
  pose proof (checkValidValue_heap DAY_OF_MONTH dayOfMonth st) as Hcheck.
  destruct (checkValidValue DAY_OF_MONTH dayOfMonth st) as [[d|e] st1] eqn:Hrun;
    simpl in Hcheck; [|now left].
  assert (Hd : 1 <= d <= 31).
  { unfold checkValidValue, bind, record in Hrun.
    destruct dayOfMonth; try discriminate.
    destruct (isValidValue DAY_OF_MONTH n) eqn:Hvalid; [|discriminate].
    injection Hrun as <- _. now apply isValidValue_true in Hvalid. }
  destruct month as [mo|]; [|now left].
  cbv [Month_maxLength Month_name bind record ret].
  destruct (Z.gtb_spec d (Month.maxLength mo)) as [Hgt|Hle];
    [destruct (name_of_Month mo); now left|].
  right. exists {| _month := Month.value mo; _day := d |}, (length (heap st)).
  cbn [new_MonthDay fst snd heap alloc log]. rewrite Hcheck.
  split; [|split; reflexivity].
  unfold valid. simpl. rewrite maxLengthInLeapYear_value.
  pose proof (value_bounds mo). lia.
Qed.

Lemma creates_valid__ofNumberNumber (month dayOfMonth : Value) :
  creates_valid (_ofNumberNumber month dayOfMonth).
Proof.
  unfold _ofNumberNumber.
  apply creates_valid_bind; [apply preserves_requireNonNull|intros _].
  apply creates_valid_bind; [apply preserves_requireNonNull|intros _].
  apply creates_valid_bind; [apply Month_of_heap|intros mo].
  apply creates_valid__ofMonthNumber.
Qed.

Lemma creates_valid_of (arguments : list Value) : creates_valid (of_ arguments).
Proof.
  unfold of_.
  destruct ((length arguments =? 2)%nat && instanceof_Month (argument 0 arguments)).
  - apply creates_valid__ofMonthNumber.
  - apply creates_valid__ofNumberNumber.
Qed.

Lemma creates_valid__nowClock (clock : option Clock) :
  creates_valid (_nowClock clock).
Proof.
  unfold _nowClock.
  apply creates_valid_bind; [apply preserves_requireNonNull|intros _].
  destruct clock as [c|].
  - apply creates_valid_bind; [apply LocalDate_now_heap|intros now].
    apply creates_valid_of.
  - apply preserves_creates_valid, preserves_throw.
Qed.

Lemma creates_valid_from_fields (t : TemporalAccessor) :
  creates_valid (from_fields t).
Proof.
  unfold from_fields.
  apply creates_valid_try_catch; [|intros ex; apply preserves_throw].
  apply creates_valid_bind; [apply TemporalAccessor_get_heap|intros m].
  apply creates_valid_bind; [apply TemporalAccessor_get_heap|intros d].
  apply creates_valid_of.
Qed.

Lemma creates_valid_from (temporal : Value) : creates_valid (from temporal).
Proof.
  unfold from.
  apply creates_valid_bind; [apply preserves_requireNonNull|intros _].
  apply creates_valid_bind; [apply preserves_requireInstance|intros _].
  destruct temporal; try apply creates_valid_from_fields;
    apply preserves_creates_valid; solve [repeat preserves_step].
Qed.

Lemma creates_valid_DateTimeFormatter_parse (formatter : DateTimeFormatter)
  (input : Value) (query : option TemporalQuery) :
  creates_valid (DateTimeFormatter_parse formatter input query).
Proof.
  unfold DateTimeFormatter_parse.
  apply creates_valid_bind; [apply preserves_record_heap|intros _].
  destruct input;
    try (apply preserves_creates_valid; solve [repeat preserves_step]).
  destruct (parse_pattern formatter s) as [fields|];
    [|apply preserves_creates_valid, preserves_throw].
  destruct query as [q|]; [|apply preserves_creates_valid, preserves_throw].
  unfold TemporalQuery_queryFrom. destruct (queryFrom q).
  apply creates_valid_from.
Qed.

Lemma creates_valid__parseStringFormatter (text formatter : Value) :
  creates_valid (_parseStringFormatter text formatter).
Proof.
  unfold _parseStringFormatter.
  apply creates_valid_bind; [apply preserves_requireNonNull|intros _].
  apply creates_valid_bind; [apply preserves_requireNonNull|intros _].
  apply creates_valid_bind; [apply preserves_requireInstance|intros _].
  apply creates_valid_bind; [apply preserves_read_MonthDay_FROM|intros query].
  destruct formatter;
    try (apply preserves_creates_valid; solve [repeat preserves_step]).
  apply creates_valid_DateTimeFormatter_parse.
Qed.

Lemma creates_valid_parse (arguments : list Value) :
  creates_valid (parse arguments).
Proof.
  unfold parse, _parseString. destruct (length arguments =? 1)%nat.
  - apply creates_valid_bind; [apply preserves_read_PARSER|intros parser].
    apply creates_valid__parseStringFormatter.
  - apply creates_valid__parseStringFormatter.
Qed.

(** Every operation of the class. *)
Lemma creates_valid_perform (op : Operation) : creates_valid (perform op).
Proof.
  destruct op; simpl; apply creates_valid_returning.
  - apply creates_valid_of.
  - apply creates_valid__ofMonthNumber.
  - apply creates_valid__ofNumberNumber.
  - apply creates_valid__nowClock.
  - apply creates_valid_from.
  - apply creates_valid_parse.
  - apply preserves_creates_valid, _init_heap.
  - apply preserves_creates_valid, monthValue_heap.
  - apply preserves_creates_valid, month_heap.
  - apply preserves_creates_valid, dayOfMonth_heap.
  - apply preserves_creates_valid, equals_heap.
Qed.

Lemma reachable_valid (st : State) : reachable st -> Forall valid (heap st).
Proof.
  induction 1 as [|op st Hst IH]; [constructor|].
  destruct (creates_valid_perform op st) as [Hheap|(obj & a & Hobj & _ & Hheap)];
    rewrite Hheap; [assumption|].
  apply Forall_app. split; [assumption|]. now constructor.
Qed.

End Invariant.

(** C2: every instance in a state that calls of the class have led to is
    valid: month 1..12, day 1..31, and the day within the month's length in a
    leap year, which is also what its accessors answer; no operation changes
    an instance that exists, and an operation that throws has created
    none. *)
Theorem instances_valid_and_immutable `{Collaborators} :
  (forall st : State, reachable st -> Forall valid (heap st)) /\
  (forall (st : State) (this : loc) (m d : Z),
      reachable st ->
      monthValue this st = (Return m, st) -> dayOfMonth this st = (Return d, st) ->
      1 <= m <= 12 /\ 1 <= d <= 31 /\ d <= maxLengthInLeapYear m) /\
  (forall (op : Operation) (st : State) (this : loc) (obj : MonthDay),
      heap st !! this = Some obj ->
      heap (final (perform op) st) !! this = Some obj) /\
  (forall (op : Operation) (st : State) (ex : Exception),
      outcome (perform op) st = Throw ex ->
      heap (final (perform op) st) = heap st).
Proof.
  split; [|split; [|split]].
  - intros st. apply reachable_valid.
  - intros st this m d Hst Hm Hd.
    destruct (monthValue_Return _ _ _ _ Hm) as (obj & Hobj & <-).
    destruct (dayOfMonth_Return _ _ _ _ Hd) as (obj' & Hobj' & <-).
    rewrite Hobj in Hobj'. injection Hobj' as <-.
    pose proof (reachable_valid st Hst) as Hall.
    rewrite Forall_lookup in Hall. exact (Hall this obj Hobj).
  - intros op st this obj Hobj. unfold final.
    destruct (creates_valid_perform op st) as [Hheap|(new & a & _ & _ & Hheap)];
      rewrite Hheap; [assumption|].
    now apply lookup_snoc_before.
  - intros op st ex Hex. unfold final, outcome in *.
    destruct (creates_valid_perform op st) as [Hheap|(new & a & _ & Hr & _)];
      [assumption|].
    rewrite Hr in Hex. discriminate.
Qed.

Lemma instances_valid_and_immutable_witness :
  let st := final (@perform plain (op_parse [str "--02-29"]))
              (final (@perform plain op_init) initial) in
  (@reachable plain st /\
   monthValue 0%nat st = (Return 2, st) /\ dayOfMonth 0%nat st = (Return 29, st)) /\
  1 <= 2 <= 12 /\ 1 <= 29 <= 31 /\ 29 <= maxLengthInLeapYear 2.
Proof.
  intros st.
  assert (Hst : @reachable plain st)
    by (apply reachable_perform, reachable_perform, reachable_initial).
  assert (Hm : monthValue 0%nat st = (Return 2, st)) by reflexivity.
  assert (Hd : dayOfMonth 0%nat st = (Return 29, st)) by reflexivity.
  split; [auto|].
  exact (proj1 (proj2 (@instances_valid_and_immutable plain)) st 0%nat 2 29 Hst Hm Hd).
Defined.

(* ===================================================================== *)
(** * Parsing                                                             *)
(* ===================================================================== *)

(** Only [_init()] assigns [PARSER]. *)
Lemma perform_PARSER `{Collaborators} (op : Operation) :
  op <> op_init -> preserves PARSER (perform op).
Proof.
  intros Hop. destruct op; try congruence; clear Hop;
    unfold perform, returning, parse, _parseString, _parseStringFormatter,
      DateTimeFormatter_parse, TemporalQuery_queryFrom, from, from_fields,
      _nowClock, of_, _ofNumberNumber, _ofMonthNumber, equals, month, monthValue,
      dayOfMonth, TemporalAccessor_get, LocalDate_now, Month_maxLength,
      Month_name, Month_of, checkValidValue, requireInstance, requireNonNull;
    repeat preserves_step.
Qed.

(** A digit is the character of its value. *)
Lemma digit_char_value (c : ascii) :
  is_digit c = true -> digit_char (digit_value c) = c /\ 0 <= digit_value c <= 9.
Proof.
  destruct c as [b0 b1 b2 b3 b4 b5 b6 b7].
  destruct b0, b1, b2, b3, b4, b5, b6, b7; try discriminate;
    intros _; (split; [reflexivity | vm_compute; split; discriminate]).
Qed.

Lemma print_two_digits (c1 c2 : ascii) :
  is_digit c1 = true -> is_digit c2 = true ->
  print_digits 2 (10 * (10 * 0 + digit_value c1) + digit_value c2)
  = String c1 (String c2 "").
Proof.
  intros H1 H2.
  destruct (digit_char_value c1 H1) as [Hc1 Hv1].
  destruct (digit_char_value c2 H2) as [Hc2 Hv2].
  set (v1 := digit_value c1) in *. set (v2 := digit_value c2) in *.
  assert (Hdiv : (10 * (10 * 0 + v1) + v2) / 10 = v1)
    by (symmetry; apply (Z.div_unique _ 10 v1 v2); lia).
  assert (Hmod : (10 * (10 * 0 + v1) + v2) mod 10 = v2)
    by (symmetry; apply (Z.mod_unique _ 10 v1 v2); lia).
  cbn [print_digits]. rewrite Hmod, Hdiv, (Z.mod_small v1 10) by lia.
  now rewrite Hc1, Hc2.
Qed.

(** The texts the pattern [--MM-dd] accepts, and what it reads of them. *)
Lemma parse_default_pattern (input : string) (fields : list (ChronoField * Z)) :
  parse_pattern default_pattern input = Some fields ->
  exists c1 c2 c3 c4 : ascii,
    input = String "-" (String "-" (String c1 (String c2
              (String "-" (String c3 (String c4 "")))))) /\
    (is_digit c1 = true /\ is_digit c2 = true) /\
    (is_digit c3 = true /\ is_digit c4 = true) /\
    fields = [(MONTH_OF_YEAR, 10 * (10 * 0 + digit_value c1) + digit_value c2);
              (DAY_OF_MONTH, 10 * (10 * 0 + digit_value c3) + digit_value c4)].
Proof.
  unfold default_pattern. cbn [parse_pattern].
  destruct input as [|a1 [|a2 [|c1 [|c2 [|a3 [|c3 [|c4 rest]]]]]]];
    cbn [strip_literal parse_digits];
    repeat match goal with
      | |- context [Ascii.eqb ?a ?b] =>
          destruct (Ascii.eqb_spec a b); [subst|discriminate]
      | |- context [is_digit ?c] =>
          destruct (is_digit c) eqn:?; [|discriminate]
      end;
    try discriminate.
  destruct rest; [|discriminate].
  intros [= <-]. exists c1, c2, c3, c4. repeat split; assumption.
Qed.

(** C8, where the code departs from it: the instance that
    [parseText("--12-03")] returns cannot be formatted back through the
    default pattern, for a formatter can read no field of a [MonthDay]. *)
Lemma parseText_no_round_trip :
  let st' := final (@parse plain [str "--12-03"]) (final _init initial) in
  @parse plain [str "--12-03"] (final _init initial) = (Return 0%nat, st') /\
  format_pattern default_pattern (@readable_fields plain (MonthDayRef 0%nat))
  <> Some "--12-03".
Proof.
  intros st'. split; [reflexivity|]. discriminate.
Qed.

(** C8, the part that holds of the code: [parseText] without a formatter
    parses with the module's one [PARSER], which [_init()] binds to the
    pattern [--MM-dd] and which nothing else assigns; ["--12-03"] parses to a
    new instance with [monthValue()] 12 and [dayOfMonth()] 3. *)
Theorem parseText_default `{Collaborators} :
  (forall st : State, PARSER (final _init st) = FormatterRef default_pattern) /\
  (forall (op : Operation) (st : State),
      op <> op_init -> PARSER (final (perform op) st) = PARSER st) /\
  (forall (st : State) (input : Value),
      parse [input] st = _parseStringFormatter input (PARSER st) st) /\
  (forall st : State,
      let st0 := final _init st in
      exists st' : State,
        parse [str "--12-03"] st0 = (Return (length (heap st0)), st') /\
        heap st' = (heap st ++ [{| _month := 12; _day := 3 |}])%list /\
        monthValue (length (heap st0)) st' = (Return 12, st') /\
        dayOfMonth (length (heap st0)) st' = (Return 3, st')).
Proof.
  split; [reflexivity|]. split; [|split; [reflexivity|]].
  - intros op st Hop. now apply perform_PARSER.
  - intros st st0. eexists. split; [reflexivity|].
    split; [reflexivity|]. split.
    + apply (monthValue_allocated _ {| _month := 12; _day := 3 |}).
      exact (lookup_alloc _ _).
    + apply (dayOfMonth_allocated _ {| _month := 12; _day := 3 |}).
      exact (lookup_alloc _ _).
Qed.

Lemma parseText_default_witness :
  op_parse [str "--12-03"] <> op_init /\
  PARSER (final (@perform plain (op_parse [str "--12-03"])) (final _init initial))
  = PARSER (final _init initial).
Proof.
  assert (Hop : op_parse [str "--12-03"] <> op_init) by discriminate.
  split; [exact Hop|].
  exact (proj1 (proj2 (@parseText_default plain))
           (op_parse [str "--12-03"]) (final _init initial) Hop).
Defined.

(** C9, where the code departs from it: [from] on a time of day, which has
    neither field.  The exception is the [DateTimeException] of lines
    198-199 and its message holds the object's description; for the type it
    holds [NaN], the constructor's name as a number. *)
Theorem from_message_loses_type `{Collaborators} :
  forall st : State,
    from (AccessorRef a_time) st
    = (Throw (DateTimeException
                "Unable to obtain MonthDay from TemporalAccessor: 12:30, type NaN"),
       log (call_get a_time MONTH_OF_YEAR) st).
Proof. reflexivity. Qed.

(** What holds of C9 in general: a source whose month or day cannot be read
    makes [from] throw the [DateTimeException] of [from_message], and the
    heap stays as it was. *)
Lemma from_extraction_failure `{Collaborators} (t : TemporalAccessor) (st : State) :
  (exists ex, get t MONTH_OF_YEAR = Throw ex) \/
  (exists ex, get t DAY_OF_MONTH = Throw ex) ->
  outcome (from (AccessorRef t)) st = Throw (DateTimeException (from_message t)) /\
  heap (final (from (AccessorRef t)) st) = heap st.
Proof.
  intros Hget.
  unfold outcome, final, from, from_fields, try_catch, TemporalAccessor_get,
    bind, record, requireNonNull, requireInstance.
  cbn [is_null Value_Nullable instanceof_TemporalAccessor ret fst snd].
  destruct Hget as [[ex Hex]|[ex Hex]].
  - rewrite Hex. split; reflexivity.
  - destruct (get t MONTH_OF_YEAR) as [m|ex']; [|split; reflexivity].
    cbn [ret]. rewrite Hex. split; reflexivity.
Qed.

(** A name that cannot be a numeric literal, as the name of a class cannot
    but for [Infinity], is no number: the message ends in [NaN] whatever the
    class. *)
Lemma from_message_NaN `{Collaborators} (t : TemporalAccessor) (c : ascii)
  (name : string) :
  constructor_name t = Some (String c name) ->
  is_white_space c = false -> may_be_numeric_literal (String c name) = false ->
  from_message t
  = "Unable to obtain MonthDay from TemporalAccessor: " ++ toString t ++ ", type NaN".
Proof.
  intros Hname Hspace Hliteral. unfold from_message, unary_plus_text.
  rewrite Hname. cbn [skip_white_space]. now rewrite Hspace, Hliteral.
Qed.

(** C10: a source that is no [MonthDay] and answers a month and a day that do
    not go together (as month 4 and day 31) makes [from] throw the
    [DateTimeException] of its catch clause, with the message of
    [from_message], which is not the message of line 140 whatever the day and
    the month's name; no instance is created. *)
Theorem from_rewraps_invalid_combination `{Collaborators} :
  forall (st : State) (t : TemporalAccessor) (m d : Z) (mo : Month.t),
    get t MONTH_OF_YEAR = Return m -> get t DAY_OF_MONTH = Return d ->
    Month.of_ordinal m = Some mo -> 1 <= d <= 31 -> maxLengthInLeapYear m < d ->
    outcome (from (AccessorRef t)) st = Throw (DateTimeException (from_message t)) /\
    (forall name : string,
        from_message t
        <> "Illegal value for DayOfMonth field, value " ++ Z_to_string d ++
           " is not valid for month " ++ name) /\
    heap (final (from (AccessorRef t)) st) = heap st.
Proof.
  intros st t m d mo Hm Hd Hmo Hrange Hmax.
  unfold maxLengthInLeapYear in Hmax. rewrite Hmo in Hmax.
  assert (Hrun : from (AccessorRef t) st
                 = (Throw (DateTimeException (from_message t)),
                    log (call_maxLength mo)
                      (log (call_checkValidValue DAY_OF_MONTH (number d))
                         (log (call_Month_of (number m))
                            (log (call_get t DAY_OF_MONTH)
                               (log (call_get t MONTH_OF_YEAR) st)))))).
  { unfold from, from_fields, try_catch.
    rewrite (bind_Return _ _ st st tt) by reflexivity.
    rewrite (bind_Return _ _ st st tt) by reflexivity.
    erewrite bind_Return
      by (unfold TemporalAccessor_get, bind, record; rewrite Hm; reflexivity).
    erewrite bind_Return
      by (unfold TemporalAccessor_get, bind, record; rewrite Hd; reflexivity).
    rewrite of_numbers, (_ofNumberNumber_numbers _ _ mo) by assumption.
    now rewrite _ofMonthNumber_invalid. }
  unfold outcome, final. rewrite Hrun.
  split; [reflexivity|]. split; [|reflexivity].
  intros name. unfold from_message. simpl. discriminate.
Qed.

Lemma from_rewraps_invalid_combination_witness :
  (get april_31 MONTH_OF_YEAR = Return 4 /\ get april_31 DAY_OF_MONTH = Return 31 /\
   Month.of_ordinal 4 = Some Month.APRIL /\ 1 <= 31 <= 31 /\
   maxLengthInLeapYear 4 < 31) /\
  outcome (@from plain (AccessorRef april_31)) initial
  = Throw (DateTimeException
             "Unable to obtain MonthDay from TemporalAccessor: 04-31, type NaN").
Proof.
  assert (Hm : get april_31 MONTH_OF_YEAR = Return 4) by reflexivity.
  assert (Hd : get april_31 DAY_OF_MONTH = Return 31) by reflexivity.
  assert (Hmo : Month.of_ordinal 4 = Some Month.APRIL) by reflexivity.
  assert (Hrange : 1 <= 31 <= 31) by lia.
  assert (Hmax : maxLengthInLeapYear 4 < 31)
    by (unfold maxLengthInLeapYear; simpl; lia).
  split; [auto|].
  exact (proj1 (@from_rewraps_invalid_combination plain initial april_31
                  4 31 Month.APRIL Hm Hd Hmo Hrange Hmax)).
Defined.

(* ===================================================================== *)
(** * What [of] decides                                                   *)
(* ===================================================================== *)

Section Decisions.

Context `{Collaborators}.

(** [_ofMonthNumber] on a month, case by case of the day. *)
Lemma _ofMonthNumber_cases (mo : Month.t) (dayOfMonth : Value) (st : State) :
  _ofMonthNumber (Some mo) dayOfMonth st
  = match dayOfMonth with
    | number d =>
        if isValidValue DAY_OF_MONTH d then
          if d >? Month.maxLength mo then
            (Throw (combination_failure mo d),
             log (call_maxLength mo)
               (log (call_checkValidValue DAY_OF_MONTH dayOfMonth) st))
          else
            (Return (length (heap st)),
             alloc {| _month := Month.value mo; _day := d |}
               (log (call_maxLength mo)
                  (log (call_checkValidValue DAY_OF_MONTH dayOfMonth) st)))
        else
          (Throw (DateTimeException (range_message DAY_OF_MONTH dayOfMonth)),
           log (call_checkValidValue DAY_OF_MONTH dayOfMonth) st)
    | _ =>
        (Throw (DateTimeException (range_message DAY_OF_MONTH dayOfMonth)),
         log (call_checkValidValue DAY_OF_MONTH dayOfMonth) st)
    end.
Proof.
  unfold _ofMonthNumber, checkValidValue, Month_maxLength, Month_name,
    combination_failure, requireNonNull.
  cbv [bind record ret is_null option_Nullable].
  destruct dayOfMonth; try reflexivity.
  destruct (isValidValue DAY_OF_MONTH n); [|reflexivity].
  cbv [throw new_MonthDay].
  destruct (n >? Month.maxLength mo); [|reflexivity].
  now destruct (name_of_Month mo).
Qed.

(** [_ofMonthNumber] either returns the next reference and allocates the
    instance of a valid pair, or throws and leaves the heap; for a day outside
    1..31 what it throws is a [DateTimeException]. *)
Lemma _ofMonthNumber_outcomes (mo : Month.t) (d : Z) (st : State) :
  (1 <= d <= Month.maxLength mo /\
   exists st' : State,
     _ofMonthNumber (Some mo) (number d) st = (Return (length (heap st)), st') /\
     heap st' = (heap st ++ [{| _month := Month.value mo; _day := d |}])%list) \/
  (~ (1 <= d <= Month.maxLength mo) /\
   exists (ex : Exception) (st' : State),
     _ofMonthNumber (Some mo) (number d) st = (Throw ex, st') /\
     heap st' = heap st /\
     (d < 1 \/ 31 < d -> exception_name ex = "DateTimeException")).
Proof.
  pose proof (maxLength_bounds mo) as Hmax.
  destruct (Z_le_dec 1 d) as [Hlo|Hlo]; [destruct (Z_le_dec d 31) as [Hhi|Hhi]|].
  - destruct (Z_le_dec d (Month.maxLength mo)) as [Hle|Hgt].
    + left. split; [lia|]. rewrite _ofMonthNumber_Return by lia.
      eexists. split; reflexivity.
    + right. split; [lia|]. rewrite _ofMonthNumber_invalid by lia.
      eexists. eexists. split; [reflexivity|]. split; [reflexivity|lia].
  - right. split; [lia|]. rewrite _ofMonthNumber_range by lia.
    eexists. eexists. split; [reflexivity|]. split; reflexivity.
  - right. split; [lia|]. rewrite _ofMonthNumber_range by lia.
    eexists. eexists. split; [reflexivity|]. split; reflexivity.
Qed.

Lemma _ofNumberNumber_outcomes (m d : Z) (st : State) :
  (is_month_day m d /\
   exists st' : State,
     _ofNumberNumber (number m) (number d) st = (Return (length (heap st)), st') /\
     heap st' = (heap st ++ [{| _month := m; _day := d |}])%list) \/
  (~ is_month_day m d /\
   exists (ex : Exception) (st' : State),
     _ofNumberNumber (number m) (number d) st = (Throw ex, st') /\
     heap st' = heap st /\
     (m < 1 \/ 12 < m \/ d < 1 \/ 31 < d ->
      exception_name ex = "DateTimeException")).
Proof.
  unfold is_month_day.
  destruct (Z_le_dec 1 m) as [Hlo|Hlo]; [destruct (Z_le_dec m 12) as [Hhi|Hhi]|].
  - destruct (of_ordinal_inside m (conj Hlo Hhi)) as (mo & Hmo & <-).
    rewrite maxLengthInLeapYear_value.
    rewrite (_ofNumberNumber_numbers _ _ mo) by assumption.
    destruct (_ofMonthNumber_outcomes mo d (log (call_Month_of (number (Month.value mo))) st))
      as [[Hd (st' & Hrun & Hheap)]|[Hd (ex & st' & Hrun & Hheap & Hname)]].
    + left. split; [tauto|]. exists st'. now split.
    + right. split; [tauto|]. exists ex, st'.
      split; [assumption|]. split; [assumption|].
      intros Hrange. apply Hname. lia.
  - right. split; [lia|].
    rewrite _ofNumberNumber_month_outside by (lia || reflexivity).
    eexists. eexists. split; [reflexivity|]. split; reflexivity.
  - right. split; [lia|].
    rewrite _ofNumberNumber_month_outside by (lia || reflexivity).
    eexists. eexists. split; [reflexivity|]. split; reflexivity.
Qed.

End Decisions.

(** X1: [MonthDay.of] on two numbers returns an instance exactly when the
    month is one of 1..12 and the day one of 1..the month's length in a leap
    year; the instance then holds the two numbers.  Every refusal leaves the
    heap as it was, and the refusal of a month outside 1..12 or of a day
    outside 1..31 is a [DateTimeException]. *)
Theorem of_numbers_returns_iff_month_day `{Collaborators} (st : State) (m d : Z) :
  ((exists (this : loc) (st' : State),
       of_ [number m; number d] st = (Return this, st'))
   <-> is_month_day m d) /\
  (forall (this : loc) (st' : State),
      of_ [number m; number d] st = (Return this, st') ->
      monthValue this st' = (Return m, st') /\
      dayOfMonth this st' = (Return d, st')) /\
  (forall (ex : Exception) (st' : State),
      of_ [number m; number d] st = (Throw ex, st') ->
      heap st' = heap st /\
      (m < 1 \/ 12 < m \/ d < 1 \/ 31 < d ->
       exception_name ex = "DateTimeException")).
Proof.
  rewrite of_numbers.
  destruct (_ofNumberNumber_outcomes m d st)
    as [[Hmd (st1 & Hrun & Hheap)]|[Hmd (ex1 & st1 & Hrun & Hheap & Hname)]];
    rewrite Hrun.
  - split; [|split].
    + split; [auto|]. intros _. now exists (length (heap st)), st1.
    + intros this st' [= <- <-].
      assert (Hthis : heap st1 !! length (heap st) = Some {| _month := m; _day := d |})
        by (rewrite Hheap; apply lookup_snoc_here).
      split.
      * exact (monthValue_allocated _ _ _ Hthis).
      * exact (dayOfMonth_allocated _ _ _ Hthis).
    + intros ex st'. discriminate.
  - split; [|split].
    + split; [|tauto]. intros (this & st' & Hreturn). discriminate.
    + intros this st'. discriminate.
    + intros ex st' [= <- <-]. now split.
Qed.

Lemma of_numbers_returns_iff_month_day_witness :
  let st' := final (@of_ plain [number 13; number 1]) initial in
  (@of_ plain [number 13; number 1] initial
   = (Throw (DateTimeException "value out of range"), st') /\
   (13 < 1 \/ 12 < 13 \/ 1 < 1 \/ 31 < 1)) /\
  heap st' = heap initial /\
  exception_name (DateTimeException "value out of range") = "DateTimeException".
Proof.
  intros st'.
  assert (Hrun : @of_ plain [number 13; number 1] initial
                 = (Throw (DateTimeException "value out of range"), st'))
    by reflexivity.
  assert (Hrange : 13 < 1 \/ 12 < 13 \/ 1 < 1 \/ 31 < 1) by lia.
  split; [auto|].
  destruct (proj2 (proj2 (@of_numbers_returns_iff_month_day plain initial 13 1))
              _ st' Hrun) as [Hheap Hname].
  split; [exact Hheap|exact (Hname Hrange)].
Defined.



(** X3: the two overloads of [of] agree: with a catalog month and with its
    number, [of] returns or throws the same and leaves the same heap. *)
Theorem of_overloads_agree `{Collaborators} (st : State) (mo : Month.t) (d : Z) :
  outcome (of_ [MonthRef mo; number d]) st
  = outcome (of_ [number (Month.value mo); number d]) st /\
  heap (final (of_ [MonthRef mo; number d]) st)
  = heap (final (of_ [number (Month.value mo); number d]) st).
Proof.
  rewrite of_Month, of_numbers. unfold outcome, final.
  rewrite (_ofNumberNumber_numbers _ _ mo) by apply of_ordinal_value.
  rewrite !_ofMonthNumber_cases.
  destruct (isValidValue DAY_OF_MONTH d); [|split; reflexivity].
  destruct (d >? Month.maxLength mo); split; reflexivity.
Qed.

(* ===================================================================== *)
(** * Fresh instances                                                     *)
(* ===================================================================== *)

Lemma returns_fresh_throw (e : Exception) : returns_fresh (throw e).
Proof. intros st st' this. discriminate. Qed.

Lemma returns_fresh_bind {A : Type} (m : M A) (k : A -> M loc) :
  preserves heap m -> (forall a, returns_fresh (k a)) -> returns_fresh (bind m k).
Proof.
  intros Hm Hk st st' this. unfold bind. specialize (Hm st).
  destruct (m st) as [[a|e] st1]; [|discriminate].
  simpl in Hm. intros Hrun. rewrite <- Hm. now apply (Hk a).
Qed.

Section Fresh.

Context `{Collaborators}.

Lemma returns_fresh__ofMonthNumber (month : option Month.t) (dayOfMonth : Value) :
  returns_fresh (_ofMonthNumber month dayOfMonth).
Proof.
  destruct month as [mo|]; [|intros st st' this; discriminate].
  intros st st' this. rewrite _ofMonthNumber_cases.
  destruct dayOfMonth as [| | |d| | | | |]; try discriminate.
  destruct (isValidValue DAY_OF_MONTH d) eqn:Hrange; [|discriminate].
  destruct (Z.gtb_spec d (Month.maxLength mo)) as [Hgt|Hle]; [discriminate|].
  apply isValidValue_true in Hrange. cbv [minimum maximum] in Hrange.
  intros [= <- <-]. split; [apply lookup_ge_None; lia|].
  exists {| _month := Month.value mo; _day := d |}.
  split; [|split; [reflexivity|exact (lookup_alloc _ _)]].
  unfold valid. simpl. rewrite maxLengthInLeapYear_value.
  pose proof (value_bounds mo). lia.
Qed.

Lemma returns_fresh__ofNumberNumber (month dayOfMonth : Value) :
  returns_fresh (_ofNumberNumber month dayOfMonth).
Proof.
  unfold _ofNumberNumber.
  apply returns_fresh_bind; [apply preserves_requireNonNull|intros _].
  apply returns_fresh_bind; [apply preserves_requireNonNull|intros _].
  apply returns_fresh_bind; [apply Month_of_heap|intros mo].
  apply returns_fresh__ofMonthNumber.
Qed.

Lemma returns_fresh_of (arguments : list Value) : returns_fresh (of_ arguments).
Proof.
  unfold of_.
  destruct ((length arguments =? 2)%nat && instanceof_Month (argument 0 arguments)).
  - apply returns_fresh__ofMonthNumber.
  - apply returns_fresh__ofNumberNumber.
Qed.

Lemma returns_fresh__nowClock (clock : option Clock) :
  returns_fresh (_nowClock clock).
Proof.
  unfold _nowClock.
  apply returns_fresh_bind; [apply preserves_requireNonNull|intros _].
  destruct clock as [c|]; [|apply returns_fresh_throw].
  apply returns_fresh_bind; [apply LocalDate_now_heap|intros date].
  apply returns_fresh_of.
Qed.

Lemma returns_fresh_from_accessor (t : TemporalAccessor) :
  returns_fresh (from (AccessorRef t)).
Proof.
  intros st st' this. unfold from.
  rewrite (bind_Return _ _ st st tt) by reflexivity.
  rewrite (bind_Return _ _ st st tt) by reflexivity.
  unfold from_fields, try_catch.
  destruct (bind (TemporalAccessor_get t MONTH_OF_YEAR) _ st)
    as [[a|ex] st1] eqn:Hbody; [|discriminate].
  intros [= <- <-]. revert Hbody.
  apply returns_fresh_bind; [apply TemporalAccessor_get_heap|intros m].
  apply returns_fresh_bind; [apply TemporalAccessor_get_heap|intros d].
  apply returns_fresh_of.
Qed.

Lemma returns_fresh__parseStringFormatter (text formatter : Value) :
  returns_fresh (_parseStringFormatter text formatter).
Proof.
  unfold _parseStringFormatter.
  apply returns_fresh_bind; [apply preserves_requireNonNull|intros _].
  apply returns_fresh_bind; [apply preserves_requireNonNull|intros _].
  apply returns_fresh_bind; [apply preserves_requireInstance|intros _].
  apply returns_fresh_bind; [apply preserves_read_MonthDay_FROM|intros query].
  destruct formatter; try apply returns_fresh_throw.
  unfold DateTimeFormatter_parse.
  apply returns_fresh_bind; [apply preserves_record_heap|intros _].
  destruct text; try apply returns_fresh_throw.
  destruct (parse_pattern f s) as [fields|]; [|apply returns_fresh_throw].
  destruct query as [q|]; [|apply returns_fresh_throw].
  unfold TemporalQuery_queryFrom. destruct (queryFrom q).
  apply returns_fresh_from_accessor.
Qed.

Lemma returns_fresh_parse (arguments : list Value) : returns_fresh (parse arguments).
Proof.
  unfold parse, _parseString. destruct (length arguments =? 1)%nat.
  - apply returns_fresh_bind; [apply preserves_read_PARSER|intros parser].
    apply returns_fresh__parseStringFormatter.
  - apply returns_fresh__parseStringFormatter.
Qed.

Lemma returns_fresh_now `{SystemClocks} (arguments : list NowArgument) :
  returns_fresh (now arguments).
Proof.
  unfold now, _now0, _nowZoneId, _nowClock_apply.
  destruct (length arguments =? 0)%nat; [apply returns_fresh__nowClock|].
  destruct ((length arguments =? 1)%nat && instanceof_ZoneId (now_argument 0 arguments)).
  - apply returns_fresh_bind; [apply preserves_requireNonNull|intros _].
    destruct (as_ZoneId (now_argument 0 arguments));
      [apply returns_fresh__nowClock|apply returns_fresh_throw].
  - destruct (now_argument 0 arguments); try apply returns_fresh__nowClock.
    destruct (LocalDate_now_ZoneId zone);
      [apply returns_fresh_of|apply returns_fresh_throw].
Qed.

End Fresh.

(** X4: no factory hands out an instance twice.  Whenever [of], [now] (in
    each of its forms), [parse] or [from] on an object that is no [MonthDay]
    returns, the reference returned did not exist before the call, and the
    call has added that one valid instance to the heap and nothing else. *)
Theorem factories_return_fresh_instances `{Collaborators} `{SystemClocks} :
  (forall arguments : list Value, returns_fresh (of_ arguments)) /\
  (forall arguments : list NowArgument, returns_fresh (now arguments)) /\
  (forall clock : option Clock, returns_fresh (_nowClock clock)) /\
  (forall arguments : list Value, returns_fresh (parse arguments)) /\
  (forall t : TemporalAccessor, returns_fresh (from (AccessorRef t))).
Proof.
  split; [exact returns_fresh_of|]. split; [exact returns_fresh_now|].
  split; [exact returns_fresh__nowClock|]. split; [exact returns_fresh_parse|].
  exact returns_fresh_from_accessor.
Qed.

Lemma factories_return_fresh_instances_witness :
  let st' := final (@of_ plain [number 2; number 29]) initial in
  @of_ plain [number 2; number 29] initial = (Return 0%nat, st') /\
  heap initial !! 0%nat = None /\
  exists obj : MonthDay,
    valid obj /\ heap st' = (heap initial ++ [obj])%list /\ heap st' !! 0%nat = Some obj.
Proof.
  intros st'.
  assert (Hrun : @of_ plain [number 2; number 29] initial = (Return 0%nat, st'))
    by reflexivity.
  split; [exact Hrun|].
  exact (proj1 (@factories_return_fresh_instances plain leap_day_clocks)
           [number 2; number 29] initial st' 0%nat Hrun).
Defined.

(* ===================================================================== *)
(** * What [from] and [now] decide                                        *)
(* ===================================================================== *)

(** [from] on an object that is no [MonthDay], case by case of what its two
    fields answer. *)
Lemma from_accessor_cases `{Collaborators} (t : TemporalAccessor) (st : State) :
  from (AccessorRef t) st
  = match get t MONTH_OF_YEAR with
    | Return m =>
        match get t DAY_OF_MONTH with
        | Return d =>
            match _ofNumberNumber (number m) (number d)
                    (log (call_get t DAY_OF_MONTH)
                       (log (call_get t MONTH_OF_YEAR) st)) with
            | (Return this, st') => (Return this, st')
            | (Throw _, st') => (Throw (DateTimeException (from_message t)), st')
            end
        | Throw _ =>
            (Throw (DateTimeException (from_message t)),
             log (call_get t DAY_OF_MONTH) (log (call_get t MONTH_OF_YEAR) st))
        end
    | Throw _ =>
        (Throw (DateTimeException (from_message t)),
         log (call_get t MONTH_OF_YEAR) st)
    end.
Proof.
  unfold from, from_fields, try_catch, TemporalAccessor_get, requireNonNull,
    requireInstance.
  cbv [bind record ret is_null Value_Nullable instanceof_TemporalAccessor].
  destruct (get t MONTH_OF_YEAR) as [m|ex]; [|reflexivity].
  destruct (get t DAY_OF_MONTH) as [d|ex]; [|reflexivity].
  rewrite of_numbers. reflexivity.
Qed.

(** X5: [from] on an object that is no [MonthDay] returns exactly when the
    object answers both fields and the two go together, and the instance then
    holds them; whatever else happens, a field that cannot be read or a pair
    that [of] refuses, the caller sees the one [DateTimeException] of [from],
    and the heap is as it was. *)
Theorem from_accessor_outcomes `{Collaborators} (t : TemporalAccessor) (st : State) :
  (forall m d : Z,
      get t MONTH_OF_YEAR = Return m -> get t DAY_OF_MONTH = Return d ->
      is_month_day m d ->
      exists st' : State,
        from (AccessorRef t) st = (Return (length (heap st)), st') /\
        heap st' = (heap st ++ [{| _month := m; _day := d |}])%list) /\
  (forall (this : loc) (st' : State),
      from (AccessorRef t) st = (Return this, st') ->
      exists m d : Z,
        get t MONTH_OF_YEAR = Return m /\ get t DAY_OF_MONTH = Return d /\
        is_month_day m d /\
        monthValue this st' = (Return m, st') /\
        dayOfMonth this st' = (Return d, st')) /\
  (forall (ex : Exception) (st' : State),
      from (AccessorRef t) st = (Throw ex, st') ->
      ex = DateTimeException (from_message t) /\ heap st' = heap st).
Proof.
  rewrite from_accessor_cases.
  destruct (get t MONTH_OF_YEAR) as [m|exm].
  2: { split; [discriminate|]. split; [discriminate|].
       intros ex st' [= <- <-]. now split. }
  destruct (get t DAY_OF_MONTH) as [d|exd].
  2: { split; [discriminate|]. split; [discriminate|].
       intros ex st' [= <- <-]. now split. }
  set (st0 := log (call_get t DAY_OF_MONTH) (log (call_get t MONTH_OF_YEAR) st)).
  destruct (_ofNumberNumber_outcomes m d st0)
    as [[Hmd (st1 & Hrun & Hheap)]|[Hmd (ex1 & st1 & Hrun & Hheap & _)]];
    rewrite Hrun.
  - split; [|split].
    + intros m' d' [= <-] [= <-] _. now exists st1.
    + intros this st' [= <- <-]. exists m, d.
      assert (Hthis : heap st1 !! length (heap st0) = Some {| _month := m; _day := d |})
        by (rewrite Hheap; apply lookup_snoc_here).
      repeat split; try assumption; try apply Hmd.
      * exact (monthValue_allocated _ _ _ Hthis).
      * exact (dayOfMonth_allocated _ _ _ Hthis).
    + discriminate.
  - split; [|split].
    + intros m' d' [= <-] [= <-] Hmd'. contradiction.
    + discriminate.
    + intros ex st' [= <- <-]. now split.
Qed.

Lemma from_accessor_outcomes_witness :
  (get a_date MONTH_OF_YEAR = Return 2 /\ get a_date DAY_OF_MONTH = Return 17 /\
   is_month_day 2 17) /\
  exists st' : State,
    @from plain (AccessorRef a_date) initial = (Return (length (heap initial)), st') /\
    heap st' = (heap initial ++ [{| _month := 2; _day := 17 |}])%list.
Proof.
  assert (Hm : get a_date MONTH_OF_YEAR = Return 2) by reflexivity.
  assert (Hd : get a_date DAY_OF_MONTH = Return 17) by reflexivity.
  assert (Hmd : is_month_day 2 17)
    by (unfold is_month_day, maxLengthInLeapYear; simpl; lia).
  split; [auto|].
  exact (proj1 (@from_accessor_outcomes plain a_date initial) 2 17 Hm Hd Hmd).
Defined.

(** X6: [from] checks its argument before it reads a field: null and
    undefined are refused for parameter [temporal] by the null check, any
    other value that is no [TemporalAccessor] by the instance check, and the
    state is untouched.  A [Month] of the catalog is a [TemporalAccessor]: it
    passes both checks and [from] goes on to read its fields, as it does
    those of any object that is no [MonthDay]. *)
Theorem from_argument_checks `{Collaborators} (st : State) (temporal : Value) :
  (is_null temporal = true ->
   from temporal st = (Throw (null_failure "temporal"), st)) /\
  (is_null temporal = false -> instanceof_TemporalAccessor temporal = false ->
   from temporal st = (Throw (instance_failure "temporal"), st)) /\
  (forall mo : Month.t,
      from (MonthRef mo) st = from (AccessorRef (Month_accessor mo)) st /\
      exists rest : list Call,
        calls (final (from (MonthRef mo)) st)
        = (calls st ++ call_get (Month_accessor mo) MONTH_OF_YEAR :: rest)%list).
Proof.
  split; [|split].
  - intros Hnull. unfold from, requireNonNull, bind. now rewrite Hnull.
  - intros Hnull Hinstance. unfold from, requireNonNull, requireInstance, bind.
    rewrite Hnull. cbv [ret]. now rewrite Hinstance.
  - intros mo. split; [reflexivity|].
    change (from (MonthRef mo)) with (from (AccessorRef (Month_accessor mo))).
    unfold final. rewrite from_accessor_cases.
    set (t := Month_accessor mo).
    destruct (get t MONTH_OF_YEAR) as [m|exm]; [|now exists []].
    destruct (get t DAY_OF_MONTH) as [d|exd];
      [|exists [call_get t DAY_OF_MONTH]; simpl; now rewrite <- app_assoc].
    set (st0 := log (call_get t DAY_OF_MONTH) (log (call_get t MONTH_OF_YEAR) st)).
    assert (Hcalls : exists more : list Call,
               calls (snd (_ofNumberNumber (number m) (number d) st0))
               = (calls st0 ++ more)%list).
    { unfold _ofNumberNumber, Month_of, requireNonNull.
      cbv [bind record ret is_null Value_Nullable].
      destruct (Month.of_ordinal m) as [mo'|];
        [|exists [call_Month_of (number m)]; reflexivity].
      rewrite _ofMonthNumber_cases.
      destruct (isValidValue DAY_OF_MONTH d);
        [destruct (d >? Month.maxLength mo')|]; eexists; simpl;
        rewrite <- ?app_assoc; reflexivity. }
    destruct Hcalls as [more Hcalls].
    exists (call_get t DAY_OF_MONTH :: more).
    destruct (_ofNumberNumber (number m) (number d) st0) as [[this|ex] st1];
      simpl in Hcalls |- *; rewrite Hcalls; unfold st0; simpl;
      now rewrite <- !app_assoc.
Qed.

Lemma from_argument_checks_witness :
  (is_null (str "--12-03") = false /\
   instanceof_TemporalAccessor (str "--12-03") = false) /\
  @from plain (str "--12-03") initial
  = (Throw (@instance_failure plain "temporal"), initial).
Proof.
  assert (Hnull : is_null (str "--12-03") = false) by reflexivity.
  assert (Hinstance : instanceof_TemporalAccessor (str "--12-03") = false)
    by reflexivity.
  split; [auto|].
  exact (proj1 (proj2 (@from_argument_checks plain initial (str "--12-03")))
           Hnull Hinstance).
Defined.

Lemma _nowClock_reads_once `{Collaborators} (clock : Clock) (st : State) :
  clock_readings (final (_nowClock (Some clock)) st) = S (clock_readings st).
Proof.
  change (_nowClock (Some clock))
    with (fun s => _ofMonthNumber (Some (LocalDate.month (today clock)))
                     (number (LocalDate.dayOfMonth (today clock)))
                     (log (call_LocalDate_now clock) s)).
  unfold final. rewrite _ofMonthNumber_readings, clock_readings_log. simpl. lia.
Qed.

(** X7: [_nowClock] on a null clock and on a clock.  A null clock is refused
    before any clock is read; otherwise the clock is read once, and for a
    date whose day lies within 1..the month's length in a leap year, as the
    day of every date of the calendar does, a new instance is returned that
    answers the date's month number and day. *)
Theorem nowClock_outcomes `{Collaborators} (st : State) :
  _nowClock None st = (Throw (null_failure "clock"), st) /\
  (forall clock : Clock,
      let date := today clock in
      clock_readings (final (_nowClock (Some clock)) st) = S (clock_readings st) /\
      (1 <= LocalDate.dayOfMonth date <= Month.maxLength (LocalDate.month date) ->
       exists st' : State,
         _nowClock (Some clock) st = (Return (length (heap st)), st') /\
         heap st'
         = (heap st ++ [{| _month := Month.value (LocalDate.month date);
                           _day := LocalDate.dayOfMonth date |}])%list /\
         monthValue (length (heap st)) st'
         = (Return (Month.value (LocalDate.month date)), st') /\
         dayOfMonth (length (heap st)) st'
         = (Return (LocalDate.dayOfMonth date), st'))).
Proof.
  split; [reflexivity|]. intros clock date.
  assert (Hrun : _nowClock (Some clock) st
                 = _ofMonthNumber (Some (LocalDate.month date))
                     (number (LocalDate.dayOfMonth date))
                     (log (call_LocalDate_now clock) st)) by reflexivity.
  split.
  - apply _nowClock_reads_once.
  - intros Hday. rewrite Hrun.
    destruct (_ofMonthNumber_outcomes (LocalDate.month date)
                (LocalDate.dayOfMonth date) (log (call_LocalDate_now clock) st))
      as [[_ (st' & Hreturn & Hheap)]|[Hno _]]; [|contradiction].
    exists st'. split; [exact Hreturn|]. split; [exact Hheap|].
    assert (Hthis : heap st' !! length (heap st)
                    = Some {| _month := Month.value (LocalDate.month date);
                              _day := LocalDate.dayOfMonth date |})
      by (rewrite Hheap; exact (lookup_snoc_here (heap st) _)).
    split.
    + exact (monthValue_allocated _ _ _ Hthis).
    + exact (dayOfMonth_allocated _ _ _ Hthis).
Qed.

Lemma nowClock_outcomes_witness :
  let clock := fixedClockAt (LocalDate.make 2024 Month.FEBRUARY 29) in
  1 <= 29 <= Month.maxLength Month.FEBRUARY /\
  exists st' : State,
    @_nowClock plain (Some clock) initial = (Return (length (heap initial)), st') /\
    heap st' = (heap initial ++ [{| _month := 2; _day := 29 |}])%list /\
    monthValue (length (heap initial)) st' = (Return 2, st') /\
    dayOfMonth (length (heap initial)) st' = (Return 29, st').
Proof.
  intros clock.
  assert (Hday : 1 <= 29 <= Month.maxLength Month.FEBRUARY) by (simpl; lia).
  split; [exact Hday|].
  exact (proj2 (proj2 (@nowClock_outcomes plain initial) clock) Hday).
Defined.

(** X8: the three forms of [now].  Without arguments the system clock of the
    default zone is read, with one zone the system clock of that zone, with a
    clock that clock, whatever follows it, and each is read once; a null or
    undefined first argument is not taken for "no argument": it reaches the
    null check of [_nowClock] and is refused, with no clock read. *)
Theorem now_forms `{Collaborators} `{SystemClocks} (st : State) :
  (now [] st = _nowClock (Some Clock_systemDefaultZone) st /\
   clock_readings (final (now []) st) = S (clock_readings st)) /\
  (forall zone : ZoneId,
      now [now_ZoneId zone] st = _nowClock (Some (Clock_system zone)) st /\
      clock_readings (final (now [now_ZoneId zone]) st) = S (clock_readings st)) /\
  (forall (clock : Clock) (rest : list NowArgument),
      now (now_Clock clock :: rest) st = _nowClock (Some clock) st /\
      clock_readings (final (now (now_Clock clock :: rest)) st)
      = S (clock_readings st)) /\
  (forall rest : list NowArgument,
      now (now_null :: rest) st = (Throw (null_failure "clock"), st) /\
      now (now_undefined :: rest) st = (Throw (null_failure "clock"), st)).
Proof.
  assert (Hreadings : forall clock : Clock,
             clock_readings (final (_nowClock (Some clock)) st)
             = S (clock_readings st)).
  { intros clock. apply _nowClock_reads_once. }
  split; [|split; [|split]].
  - split; [reflexivity|]. apply Hreadings.
  - intros zone. split; [reflexivity|]. apply (Hreadings (Clock_system zone)).
  - intros clock rest.
    assert (Hnow : now (now_Clock clock :: rest) = _nowClock (Some clock)).
    { unfold now. cbn [length Nat.eqb now_argument nth instanceof_ZoneId].
      now rewrite andb_false_r. }
    rewrite Hnow. split; [reflexivity|]. apply Hreadings.
  - intros rest. split.
    + unfold now. cbn [length Nat.eqb now_argument nth instanceof_ZoneId].
      now rewrite andb_false_r.
    + unfold now. cbn [length Nat.eqb now_argument nth instanceof_ZoneId].
      now rewrite andb_false_r.
Qed.

(* ===================================================================== *)
(** * Accessors, equality and the constructor                             *)
(* ===================================================================== *)

Lemma month_allocated `{Collaborators} (this : loc) (obj : MonthDay) (mo : Month.t)
  (st : State) :
  heap st !! this = Some obj -> Month.of_ordinal (_month obj) = Some mo ->
  month this st = (Return mo, log (call_Month_of (number (_month obj))) st).
Proof.
  intros Hobj Hmo. unfold month, this_object, bind. rewrite Hobj.
  now apply Month_of_inside.
Qed.

Lemma month_outside `{Collaborators} (this : loc) (obj : MonthDay) (st : State) :
  heap st !! this = Some obj -> ~ (1 <= _month obj <= 12) ->
  month this st
  = (Throw (DateTimeException (range_message MONTH_OF_YEAR (number (_month obj)))),
     log (call_Month_of (number (_month obj))) st).
Proof.
  intros Hobj Hmonth. unfold month, this_object, bind. rewrite Hobj.
  now apply Month_of_outside.
Qed.

(** X9: [month()] gives back the catalog month an instance was made of, and
    on an instance of a state the class's operations have led to it never
    throws: it answers the month whose number is [monthValue()]. *)
Theorem month_of_instance `{Collaborators} :
  (forall (st : State) (mo : Month.t) (d : Z),
      1 <= d <= Month.maxLength mo ->
      exists st' : State,
        _ofMonthNumber (Some mo) (number d) st = (Return (length (heap st)), st') /\
        outcome (month (length (heap st))) st' = Return mo) /\
  (forall (st : State) (this : loc) (m : Z),
      reachable st -> monthValue this st = (Return m, st) ->
      exists mo : Month.t,
        outcome (month this) st = Return mo /\ Month.value mo = m).
Proof.
  split.
  - intros st mo d Hd. rewrite _ofMonthNumber_Return by assumption.
    eexists. split; [reflexivity|].
    unfold outcome.
    erewrite month_allocated;
      [reflexivity | exact (lookup_alloc _ _) | apply of_ordinal_value].
  - intros st this m Hst Hm.
    destruct (monthValue_Return _ _ _ _ Hm) as (obj & Hobj & <-).
    pose proof (reachable_valid st Hst) as Hall.
    rewrite Forall_lookup in Hall. destruct (Hall this obj Hobj) as [Hmonth _].
    destruct (of_ordinal_inside _ Hmonth) as (mo & Hmo & Hvalue).
    exists mo. split; [|assumption].
    unfold outcome. now rewrite (month_allocated this obj mo).
Qed.

Lemma month_of_instance_witness :
  1 <= 30 <= Month.maxLength Month.NOVEMBER /\
  exists st' : State,
    @_ofMonthNumber plain (Some Month.NOVEMBER) (number 30) initial
    = (Return (length (heap initial)), st') /\
    outcome (@month plain (length (heap initial))) st' = Return Month.NOVEMBER.
Proof.
  assert (Hd : 1 <= 30 <= Month.maxLength Month.NOVEMBER) by (simpl; lia).
  split; [exact Hd|].
  exact (proj1 (@month_of_instance plain) initial Month.NOVEMBER 30 Hd).
Defined.

(** [equals] on a reference that was never allocated. *)
Lemma equals_unallocated (this other : loc) (st : State) :
  this <> other -> heap st !! this = None \/ heap st !! other = None ->
  equals this (MonthDayRef other) st = (Throw dangling, st).
Proof.
  intros Hne Hnone. unfold equals, same_object.
  apply Nat.eqb_neq in Hne. rewrite Hne.
  destruct (heap st !! this) as [a|] eqn:Ha.
  - destruct Hnone as [Hnone|Hnone]; [discriminate|].
    rewrite (bind_Return _ _ st st (_month a)) by now apply monthValue_allocated.
    apply bind_Throw. unfold monthValue, this_object, bind. now rewrite Hnone.
  - apply bind_Throw. unfold monthValue, this_object, bind. now rewrite Ha.
Qed.

(** Whatever [equals] answers of another reference, it has read both
    instances or they are the same reference. *)
Lemma equals_Return (this other : loc) (answer : bool) (st st' : State) :
  equals this (MonthDayRef other) st = (Return answer, st') ->
  this = other \/
  exists a b : MonthDay, heap st !! this = Some a /\ heap st !! other = Some b.
Proof.
  intros Hanswer.
  destruct (Nat.eq_dec this other) as [Heq|Hne]; [now left|]. right.
  destruct (heap st !! this) as [a|] eqn:Ha.
  - destruct (heap st !! other) as [b|] eqn:Hb; [now exists a, b|].
    rewrite equals_unallocated in Hanswer by auto. discriminate.
  - rewrite equals_unallocated in Hanswer by auto. discriminate.
Qed.

(** When [equals] answers true of another reference. *)
Lemma equals_true (this other : loc) (st st' : State) :
  equals this (MonthDayRef other) st = (Return true, st') ->
  this = other \/
  exists a b : MonthDay,
    heap st !! this = Some a /\ heap st !! other = Some b /\
    _month a = _month b /\ _day a = _day b.
Proof.
  intros Hanswer.
  destruct (equals_Return _ _ _ _ _ Hanswer) as [Heq|(a & b & Ha & Hb)];
    [now left|].
  destruct (Nat.eq_dec this other) as [Heq|Hne]; [now left|]. right.
  rewrite (equals_allocated _ _ a b) in Hanswer by assumption.
  apply Nat.eqb_neq in Hne. rewrite Hne in Hanswer. simpl in Hanswer.
  injection Hanswer as Hfields _.
  apply andb_true_iff in Hfields. rewrite !Z.eqb_eq in Hfields.
  exists a, b. tauto.
Qed.

(** X10: [equals] is transitive, and instances it calls equal answer the same
    to [monthValue()] and [dayOfMonth()]: with reflexivity and symmetry it is
    an equivalence that the accessors respect. *)
Theorem equals_transitive_and_congruent `{Collaborators} :
  (forall (st : State) (a b c : loc),
      equals a (MonthDayRef b) st = (Return true, st) ->
      equals b (MonthDayRef c) st = (Return true, st) ->
      equals a (MonthDayRef c) st = (Return true, st)) /\
  (forall (st : State) (a b : loc),
      equals a (MonthDayRef b) st = (Return true, st) ->
      monthValue a st = monthValue b st /\ dayOfMonth a st = dayOfMonth b st).
Proof.
  split.
  - intros st a b c Hab Hbc.
    destruct (equals_true _ _ _ _ Hab) as [->|(x & y & Hx & Hy & Hm1 & Hd1)];
      [assumption|].
    destruct (equals_true _ _ _ _ Hbc) as [<-|(y' & z & Hy' & Hz & Hm2 & Hd2)];
      [assumption|].
    rewrite Hy in Hy'. injection Hy' as <-.
    rewrite (equals_allocated _ _ x z) by assumption.
    rewrite Hm1, Hm2, Hd1, Hd2, !Z.eqb_refl. simpl. now rewrite orb_true_r.
  - intros st a b Hab.
    destruct (equals_true _ _ _ _ Hab) as [->|(x & y & Hx & Hy & Hm & Hd)];
      [now split|].
    rewrite (monthValue_allocated _ _ _ Hx), (monthValue_allocated _ _ _ Hy).
    rewrite (dayOfMonth_allocated _ _ _ Hx), (dayOfMonth_allocated _ _ _ Hy).
    now rewrite Hm, Hd.
Qed.

Lemma equals_transitive_and_congruent_witness :
  let st := final (let! a := @_ofNumberNumber plain (number 7) (number 4) in
                   @of_ plain [MonthRef Month.JULY; number 4]) initial in
  equals 0%nat (MonthDayRef 1%nat) st = (Return true, st) /\
  monthValue 0%nat st = monthValue 1%nat st /\
  dayOfMonth 0%nat st = dayOfMonth 1%nat st.
Proof.
  intros st.
  assert (Hab : equals 0%nat (MonthDayRef 1%nat) st = (Return true, st))
    by reflexivity.
  split; [exact Hab|].
  exact (proj2 (@equals_transitive_and_congruent plain) st 0%nat 1%nat Hab).
Defined.

(** X11: what a caller has observed of an instance stays true: after any
    operation of the class, [monthValue()], [dayOfMonth()] and [equals]
    answer what they answered before it. *)
Theorem observations_are_stable `{Collaborators} (op : Operation) (st : State)
  (this : loc) :
  let st' := final (perform op) st in
  (forall m : Z,
      monthValue this st = (Return m, st) -> monthValue this st' = (Return m, st')) /\
  (forall d : Z,
      dayOfMonth this st = (Return d, st) -> dayOfMonth this st' = (Return d, st')) /\
  (forall (obj : Value) (answer : bool),
      equals this obj st = (Return answer, st) ->
      equals this obj st' = (Return answer, st')).
Proof.
  intros st'.
  assert (Hkept : forall (l : loc) (x : MonthDay),
             heap st !! l = Some x -> heap st' !! l = Some x).
  { intros l x Hx. unfold st', final.
    destruct (creates_valid_perform op st) as [Hheap|(new & a & _ & _ & Hheap)];
      rewrite Hheap; [assumption|now apply lookup_snoc_before]. }
  split; [|split].
  - intros m Hm. destruct (monthValue_Return _ _ _ _ Hm) as (obj & Hobj & <-).
    apply monthValue_allocated. now apply Hkept.
  - intros d Hd. destruct (dayOfMonth_Return _ _ _ _ Hd) as (obj & Hobj & <-).
    apply dayOfMonth_allocated. now apply Hkept.
  - intros obj answer Hanswer.
    destruct (instanceof_MonthDay obj) eqn:Hclass.
    + destruct obj; try discriminate.
      destruct (equals_Return _ _ _ _ _ Hanswer) as [->|(a & b & Ha & Hb)].
      * rewrite equals_same in Hanswer. injection Hanswer as <-. apply equals_same.
      * rewrite (equals_allocated _ _ a b) in Hanswer by assumption.
        injection Hanswer as <-.
        apply (equals_allocated _ _ a b); now apply Hkept.
    + rewrite equals_other_class in Hanswer by assumption.
      injection Hanswer as <-. now apply equals_other_class.
Qed.

Lemma observations_are_stable_witness :
  let st := final (@of_ plain [number 5; number 31]) initial in
  let st' := final (@perform plain (op_of [number 6; number 31])) st in
  monthValue 0%nat st = (Return 5, st) /\
  monthValue 0%nat st' = (Return 5, st').
Proof.
  intros st st'.
  assert (Hm : monthValue 0%nat st = (Return 5, st)) by reflexivity.
  split; [exact Hm|].
  exact (proj1 (@observations_are_stable plain (op_of [number 6; number 31]) st 0%nat)
           5 Hm).
Defined.

(** X12: the constructor validates nothing.  [new MonthDay(month, dayOfMonth)]
    stores any two integers, the accessors give them back, and the instance
    satisfies the invariant of the data model only if the two go together;
    on a month outside 1..12 [month()] throws the catalog's
    [DateTimeException]. *)
Theorem constructor_stores_unchecked `{Collaborators} (st : State) (m d : Z) :
  let this := length (heap st) in
  let st' := final (new_MonthDay m d) st in
  new_MonthDay m d st = (Return this, st') /\
  monthValue this st' = (Return m, st') /\
  dayOfMonth this st' = (Return d, st') /\
  (Forall valid (heap st) -> (Forall valid (heap st') <-> is_month_day m d)) /\
  (m < 1 \/ 12 < m ->
   outcome (month this) st'
   = Throw (DateTimeException (range_message MONTH_OF_YEAR (number m)))).
Proof.
  intros this st'.
  assert (Hthis : heap st' !! this = Some {| _month := m; _day := d |})
    by exact (lookup_alloc _ st).
  split; [reflexivity|]. split; [|split; [|split]].
  - exact (monthValue_allocated _ _ _ Hthis).
  - exact (dayOfMonth_allocated _ _ _ Hthis).
  - intros Hst. unfold st', final, new_MonthDay. cbn [snd]. rewrite heap_alloc.
    rewrite Forall_app, Forall_singleton. unfold valid, is_month_day. simpl.
    split.
    + intros [_ (Hm & Hd & Hmax)]. split; [assumption|lia].
    + intros [Hm Hd]. split; [assumption|].
      destruct (of_ordinal_inside m Hm) as (mo & Hmo & <-).
      rewrite maxLengthInLeapYear_value in *.
      pose proof (maxLength_bounds mo). lia.
  - intros Hm. unfold outcome.
    rewrite (month_outside _ _ _ Hthis) by (simpl; lia). reflexivity.
Qed.

Lemma constructor_stores_unchecked_witness :
  (13 < 1 \/ 12 < 13) /\
  outcome (@month plain (length (heap initial))) (final (new_MonthDay 13 40) initial)
  = Throw (DateTimeException (@range_message plain MONTH_OF_YEAR (number 13))).
Proof.
  assert (Hm : 13 < 1 \/ 12 < 13) by lia.
  split; [exact Hm|].
  exact (proj2 (proj2 (proj2 (proj2 (@constructor_stores_unchecked plain initial 13 40))))
           Hm).
Defined.

(* ===================================================================== *)
(** * The argument checks of [parse]                                      *)
(* ===================================================================== *)

(** X13: [parse] checks its arguments before the formatter sees the text: a
    null or missing text is refused for parameter [text], then a null
    formatter for parameter [formatter], then a formatter of another class by
    the instance check, the state untouched.  So [parse(text)] in a state
    where [_init()] has not run, [PARSER] being undefined, is refused for
    parameter [formatter]. *)
Theorem parse_argument_checks `{Collaborators} (st : State) :
  (forall text formatter : Value,
      is_null text = true ->
      _parseStringFormatter text formatter st = (Throw (null_failure "text"), st)) /\
  (forall text formatter : Value,
      is_null text = false -> is_null formatter = true ->
      _parseStringFormatter text formatter st
      = (Throw (null_failure "formatter"), st)) /\
  (forall text formatter : Value,
      is_null text = false -> is_null formatter = false ->
      instanceof_DateTimeFormatter formatter = false ->
      _parseStringFormatter text formatter st
      = (Throw (instance_failure "formatter"), st)) /\
  parse [] st = (Throw (null_failure "text"), st) /\
  (forall text : Value,
      is_null text = false -> PARSER st = undefined ->
      parse [text] st = (Throw (null_failure "formatter"), st)).
Proof.
  split; [|split; [|split; [|split]]].
  - intros text formatter Htext.
    unfold _parseStringFormatter, requireNonNull, bind. now rewrite Htext.
  - intros text formatter Htext Hformatter.
    unfold _parseStringFormatter, requireNonNull, bind.
    rewrite Htext. cbv [ret]. now rewrite Hformatter.
  - intros text formatter Htext Hformatter Hclass.
    unfold _parseStringFormatter, requireNonNull, requireInstance, bind.
    rewrite Htext. cbv [ret]. rewrite Hformatter, Hclass. reflexivity.
  - reflexivity.
  - intros text Htext Hparser.
    unfold parse, _parseString, read_PARSER, _parseStringFormatter, requireNonNull, bind.
    cbn [length Nat.eqb argument nth]. rewrite Hparser, Htext. reflexivity.
Qed.

Lemma parse_argument_checks_witness :
  (is_null (str "--12-03") = false /\ PARSER initial = undefined) /\
  @parse plain [str "--12-03"] initial
  = (Throw (@null_failure plain "formatter"), initial).
Proof.
  assert (Htext : is_null (str "--12-03") = false) by reflexivity.
  assert (Hparser : PARSER initial = undefined) by reflexivity.
  split; [auto|].
  exact (proj2 (proj2 (proj2 (proj2 (@parse_argument_checks plain initial))))
           (str "--12-03") Htext Hparser).
Defined.

(* ===================================================================== *)
(** * The texts [parse] accepts                                           *)
(* ===================================================================== *)

Lemma digit_char_digit (k : Z) :
  0 <= k <= 9 -> is_digit (digit_char k) = true /\ digit_value (digit_char k) = k.
Proof.
  intros Hk.
  assert (Hcases : k = 0 \/ k = 1 \/ k = 2 \/ k = 3 \/ k = 4 \/ k = 5 \/ k = 6 \/
                   k = 7 \/ k = 8 \/ k = 9) by lia.
  repeat destruct Hcases as [-> | Hcases]; try subst k; split; reflexivity.
Qed.

Lemma parse_printed_digits (n : Z) (rest : string) :
  0 <= n < 100 ->
  parse_digits 2
    (String (digit_char ((n / 10) mod 10)) (String (digit_char (n mod 10)) rest)) 0
  = Some (n, rest).
Proof.
  intros Hn.
  assert (Hhigh : 0 <= n / 10 <= 9)
    by (split; [apply Z.div_pos; lia | apply Z.lt_succ_r, Z.div_lt_upper_bound; lia]).
  assert (Hlow : 0 <= n mod 10 <= 9) by (pose proof (Z.mod_pos_bound n 10); lia).
  rewrite (Z.mod_small (n / 10) 10) by lia.
  destruct (digit_char_digit _ Hhigh) as [Hd1 Hv1].
  destruct (digit_char_digit _ Hlow) as [Hd2 Hv2].
  cbn [parse_digits]. rewrite Hd1, Hd2, Hv1, Hv2.
  f_equal. f_equal. pose proof (Z.div_mod n 10). lia.
Qed.

(** What the pattern [--MM-dd] prints is what it reads. *)
Lemma parse_default_pattern_printed (m d : Z) (input : string) :
  format_pattern default_pattern (MonthDay_fields m d) = Some input ->
  parse_pattern default_pattern input = Some [(MONTH_OF_YEAR, m); (DAY_OF_MONTH, d)].
Proof.
  unfold default_pattern. cbn [format_pattern MonthDay_fields].
  destruct ((0 <=? d) && (d <? 10 ^ Z.of_nat 2)) eqn:Hd; [|discriminate].
  destruct ((0 <=? m) && (m <? 10 ^ Z.of_nat 2)) eqn:Hm; [|discriminate].
  apply andb_true_iff in Hd, Hm.
  rewrite Z.leb_le, Z.ltb_lt in Hd, Hm. change (10 ^ Z.of_nat 2) with 100 in Hd, Hm.
  intros [= <-]. cbn [parse_pattern strip_literal Ascii.eqb Bool.eqb andb].
  rewrite parse_printed_digits by lia.
  cbn [strip_literal Ascii.eqb Bool.eqb andb].
  rewrite parse_printed_digits by lia.
  reflexivity.
Qed.

(** [parse(text)] once [_init()] has run: the pattern reads the text, and
    [from] makes the instance of the fields read. *)
Lemma parse_default_cases `{Collaborators} (input : string) (st : State) :
  parse [str input] (final _init st)
  = match parse_pattern default_pattern input with
    | Some fields =>
        from (AccessorRef (accumulator fields))
          (log (call_parse default_pattern (str input)) (final _init st))
    | None =>
        (Throw (parse_failure default_pattern (str input)),
         log (call_parse default_pattern (str input)) (final _init st))
    end.
Proof.
  unfold parse. cbn [length Nat.eqb argument nth].
  unfold _parseString, _parseStringFormatter, read_PARSER, read_MonthDay_FROM,
    requireNonNull, requireInstance.
  cbv [bind ret].
  cbn [final _init snd PARSER MonthDay_FROM is_null Value_Nullable
         instanceof_DateTimeFormatter].
  change (toFormatter _) with default_pattern.
  unfold DateTimeFormatter_parse. cbv [bind record].
  now destruct (parse_pattern default_pattern input).
Qed.

(** [from] on the parser's accumulator of a month and a day is [of] on the
    two. *)
Lemma from_accumulator `{Collaborators} (m d : Z) (st : State) :
  let fields := [(MONTH_OF_YEAR, m); (DAY_OF_MONTH, d)] in
  from (AccessorRef (accumulator fields)) st
  = match _ofNumberNumber (number m) (number d)
            (log (call_get (accumulator fields) DAY_OF_MONTH)
               (log (call_get (accumulator fields) MONTH_OF_YEAR) st)) with
    | (Return this, st') => (Return this, st')
    | (Throw _, st') =>
        (Throw (DateTimeException (from_message (accumulator fields))), st')
    end.
Proof. intros fields. now rewrite from_accessor_cases. Qed.

(** X14: once [_init()] has run, [parse(text)] returns an instance exactly
    for the texts that the pattern [--MM-dd] prints of a month 1..12 and a
    day 1..the month's length in a leap year; the instance holds that month
    and day, and a text that is refused leaves the heap as it was. *)
Theorem parse_accepts_printed_month_days `{Collaborators} (st : State) (input : string) :
  ((exists (this : loc) (st' : State),
       parse [str input] (final _init st) = (Return this, st'))
   <-> (exists m d : Z,
           is_month_day m d /\
           format_pattern default_pattern (MonthDay_fields m d) = Some input)) /\
  (forall m d : Z,
      is_month_day m d ->
      format_pattern default_pattern (MonthDay_fields m d) = Some input ->
      exists st' : State,
        parse [str input] (final _init st) = (Return (length (heap st)), st') /\
        heap st' = (heap st ++ [{| _month := m; _day := d |}])%list) /\
  (forall (ex : Exception) (st' : State),
      parse [str input] (final _init st) = (Throw ex, st') -> heap st' = heap st).
Proof.
  assert (Hprinted : forall m d : Z,
      is_month_day m d ->
      format_pattern default_pattern (MonthDay_fields m d) = Some input ->
      exists st' : State,
        parse [str input] (final _init st) = (Return (length (heap st)), st') /\
        heap st' = (heap st ++ [{| _month := m; _day := d |}])%list).
  { intros m d Hmd Hformat.
    rewrite parse_default_cases, (parse_default_pattern_printed m d) by assumption.
    rewrite from_accumulator.
    match goal with
    | |- context [_ofNumberNumber _ _ ?s] =>
        destruct (_ofNumberNumber_outcomes m d s)
          as [[_ (st1 & Hrun & Hheap)]|[Hno _]]; [|contradiction]
    end.
    rewrite Hrun. now exists st1. }
  assert (Hday : forall m d : Z, d <= maxLengthInLeapYear m -> d <= 31).
  { intros m d. unfold maxLengthInLeapYear.
    destruct (Month.of_ordinal m) as [mo|];
      [pose proof (maxLength_bounds mo)|]; lia. }
  split; [|split; [exact Hprinted|]].
  - split.
    + intros (this & st' & Hrun). rewrite parse_default_cases in Hrun.
      destruct (parse_pattern default_pattern input) as [fields|] eqn:Hparse;
        [|discriminate].
      destruct (parse_default_pattern _ _ Hparse)
        as (c1 & c2 & c3 & c4 & -> & [H1 H2] & [H3 H4] & ->).
      set (m := 10 * (10 * 0 + digit_value c1) + digit_value c2) in *.
      set (d := 10 * (10 * 0 + digit_value c3) + digit_value c4) in *.
      rewrite from_accumulator in Hrun.
      match type of Hrun with
      | context [_ofNumberNumber _ _ ?s] =>
          destruct (_ofNumberNumber_outcomes m d s)
            as [[Hmd _]|[_ (ex1 & st1 & Hthrow & _)]];
            [|rewrite Hthrow in Hrun; discriminate]
      end.
      exists m, d. split; [exact Hmd|].
      destruct Hmd as [Hm [Hd1 Hd2]]. apply Hday in Hd2.
      unfold default_pattern. cbn [format_pattern MonthDay_fields].
      assert (Hmw : (0 <=? m) && (m <? 10 ^ Z.of_nat 2) = true)
        by (apply andb_true_iff; split; [apply Z.leb_le|apply Z.ltb_lt];
            change (10 ^ Z.of_nat 2) with 100; lia).
      assert (Hdw : (0 <=? d) && (d <? 10 ^ Z.of_nat 2) = true)
        by (apply andb_true_iff; split; [apply Z.leb_le|apply Z.ltb_lt];
            change (10 ^ Z.of_nat 2) with 100; lia).
      rewrite Hmw, Hdw. subst m d. now rewrite !print_two_digits.
    + intros (m & d & Hmd & Hformat).
      destruct (Hprinted m d Hmd Hformat) as (st' & Hrun & _).
      now exists (length (heap st)), st'.
  - intros ex st' Hrun. rewrite parse_default_cases in Hrun.
    destruct (parse_pattern default_pattern input) as [fields|];
      [|now injection Hrun as _ <-].
    match type of Hrun with
    | from ?v ?s = _ =>
        destruct (creates_valid_from v s) as [Hheap|(obj & a & _ & Hreturn & _)];
          rewrite Hrun in *; [exact Hheap|discriminate]
    end.
Qed.

Lemma parse_accepts_printed_month_days_witness :
  (is_month_day 2 29 /\
   format_pattern default_pattern (MonthDay_fields 2 29) = Some "--02-29") /\
  exists st' : State,
    @parse plain [str "--02-29"] (final _init initial)
    = (Return (length (heap initial)), st') /\
    heap st' = (heap initial ++ [{| _month := 2; _day := 29 |}])%list.
Proof.
  assert (Hmd : is_month_day 2 29)
    by (unfold is_month_day, maxLengthInLeapYear; simpl; lia).
  assert (Hformat : format_pattern default_pattern (MonthDay_fields 2 29)
                    = Some "--02-29") by reflexivity.
  split; [auto|].
  exact (proj1 (proj2 (@parse_accepts_printed_month_days plain initial "--02-29"))
           2 29 Hmd Hformat).
Defined.
